(** * draft-analysis: the statistics collection scripts

    A shallow embedding of the retry loop of [scripts/fbrefscraper.py] and
    [scripts/multi_league_scraper.py], of the name matcher of
    [scripts/targeted_player_scraper.py] and of the validation and merge of
    [import_collected_stats.py], with the properties their specification
    states about them, and further properties of these and of the
    functions around them. *)

From stdpp Require Import gmap strings list fin_maps pretty.

Local Open Scope N_scope.

(** ** Python strings

    A Python [str] is a sequence of Unicode code points. *)

Definition char := N.
Definition str := list N.

(** An ASCII literal of the source, as a [str]. *)
Definition lit (s : string) : str :=
  Ascii.N_of_ascii <$> String.list_ascii_of_string s.

(** [str.isspace] for one code point; [str.strip] and the class [\s] of
    [re] use the same test. *)
Definition isspace (c : char) : bool :=
  ((0x09 <=? c) && (c <=? 0x0D)) || ((0x1C <=? c) && (c <=? 0x20))
  || (c =? 0x85) || (c =? 0xA0) || (c =? 0x1680)
  || ((0x2000 <=? c) && (c <=? 0x200A))
  || (c =? 0x2028) || (c =? 0x2029) || (c =? 0x202F) || (c =? 0x205F)
  || (c =? 0x3000).

Definition SPACE : char := 0x20.

Fixpoint lstrip (s : str) : str :=
  match s with
  | [] => []
  | c :: s' => if isspace c then lstrip s' else s
  end.

Fixpoint rstrip (s : str) : str :=
  match s with
  | [] => []
  | c :: s' =>
      match rstrip s' with
      | [] => if isspace c then [] else [c]
      | r => c :: r
      end
  end.

(** [s.strip()] *)
Definition strip (s : str) : str := rstrip (lstrip s).

(** [re.sub('[...]', r, s)] for a class of single code points and a
    one-character replacement: every character of the class is replaced. *)
Definition sub_char (cls : list char) (r : char) (c : char) : char :=
  if bool_decide (c ∈ cls) then r else c.

Definition re_sub_class (cls : list char) (r : char) (s : str) : str :=
  sub_char cls r <$> s.

(** [re.sub(r'\s+', ' ', s)]: every maximal run of white space becomes one
    space. [in_run] tells that the previous character belonged to a run
    that has already been replaced. *)
Fixpoint re_sub_spaces (in_run : bool) (s : str) : str :=
  match s with
  | [] => []
  | c :: s' =>
      if isspace c
      then (if in_run then re_sub_spaces true s'
            else SPACE :: re_sub_spaces true s')
      else c :: re_sub_spaces false s'
  end.

(** [needle in hay] on strings. *)
Fixpoint startswith (p s : str) : bool :=
  match p, s with
  | [], _ => true
  | _ :: _, [] => false
  | a :: p', b :: s' => (a =? b) && startswith p' s'
  end.

Fixpoint contains (needle hay : str) : bool :=
  startswith needle hay
  || match hay with
     | [] => false
     | _ :: hay' => contains needle hay'
     end.

(** ** targeted_player_scraper.py: normalisation and matching *)

Section Matcher.

(** The two tables of the interpreter's Unicode database that
    [normalize_name] consults: [str.lower], and [str.isalnum] through the
    class [\w] of [re]. *)
Variable lower : str → str.
Variable isalnum : char → bool.

(** [\w] *)
Definition isword (c : char) : bool := isalnum c || (c =? 0x5F).

(** [re.sub(r'[^\w\s]', ' ', s)] *)
Definition re_sub_punct (s : str) : str :=
  (fun c => if isword c || isspace c then c else SPACE) <$> s.

Definition fold_accents (s : str) : str :=
  let s := re_sub_class [0xE0; 0xE1; 0xE2; 0xE3; 0xE4; 0xE5] 0x61 s in
  let s := re_sub_class [0xE8; 0xE9; 0xEA; 0xEB] 0x65 s in
  let s := re_sub_class [0xEC; 0xED; 0xEE; 0xEF] 0x69 s in
  let s := re_sub_class [0xF2; 0xF3; 0xF4; 0xF5; 0xF6; 0xF8] 0x6F s in
  let s := re_sub_class [0xF9; 0xFA; 0xFB; 0xFC] 0x75 s in
  let s := re_sub_class [0xF1] 0x6E s in
  re_sub_class [0xE7] 0x63 s.

Definition normalize_name (name : str) : str :=
  match name with
  | [] => []
  | _ =>
      let normalized := strip (lower name) in
      let normalized := fold_accents normalized in
      let normalized := re_sub_punct normalized in
      let normalized := re_sub_spaces false normalized in
      strip normalized
  end.

(** A cell of a scraped table as a row of [df.iterrows()] holds it, and
    [str(cell)]. Text columns hold strings, and [NaN] where the page had
    nothing. A number is held with the text that [str] gives for it in
    that row: [iterrows] turns the integers of a row of numbers into
    floats, so that [7] is shown as [7.0] there and as [7] in a row with
    text. *)
Inductive cell :=
| CellStr (s : str)
| CellNaN
| CellNum (shown : str).

Definition py_str (v : cell) : str :=
  match v with
  | CellStr s => s
  | CellNaN => lit "nan"
  | CellNum shown => shown
  end.

(** A row of the dataframe, as [df.iterrows()] yields it: the cells by
    column name. *)
Definition row := list (str * cell).

(** [row.get(col, default)] *)
Fixpoint row_get (r : row) (col : str) (default : cell) : cell :=
  match r with
  | [] => default
  | (k, v) :: r' => if bool_decide (k = col) then v else row_get r' col default
  end.

(** [df.empty]: the frame has no rows or no columns. A frame is the list
    of its rows, and every row has a cell for each column of the frame, so
    the rows of a frame without columns have no cells. *)
Definition df_empty (df : list row) : bool :=
  forallb (λ r, bool_decide (r = [])) df.

(** An entry of [TARGET_PLAYERS[...]["players"]]. *)
Record target := Target {
  primary_name : str;
  alt_names : list str;
  club : str;
  alt_clubs : list str
}.

(** The inner loops over the spellings: the flag is set at the first
    spelling that contains the candidate or is contained in it. *)
Definition variation_matches (norm_candidate : str) (variations : list str) : bool :=
  existsb (fun var =>
             let norm_target := normalize_name var in
             contains norm_target norm_candidate
             || contains norm_candidate norm_target)
          variations.

Definition norm_player (r : row) : str :=
  normalize_name (py_str (row_get r (lit "Player") (CellStr []))).

Definition norm_team (r : row) : str :=
  normalize_name (py_str (row_get r (lit "Squad") (CellStr []))).

Definition name_matches (t : target) (r : row) : bool :=
  variation_matches (norm_player r) (primary_name t :: alt_names t).

Definition club_matches (t : target) (r : row) : bool :=
  variation_matches (norm_team r) (club t :: alt_clubs t).

(** The scan of the rows for one target: it stops at the first row whose
    name and club both match. *)
Fixpoint find_player (t : target) (df : list row) : option row :=
  match df with
  | [] => None
  | r :: df' =>
      if name_matches t r && club_matches t r then Some r
      else find_player t df'
  end.

Definition find_players_with_debug (df : list row) (target_players : list target)
  : list row :=
  if df_empty df then []
  else omap (fun t => find_player t df) target_players.

End Matcher.

(** The Latin-1 part (code points below 256) of the two tables, for running
    the matcher on names written in that range. *)
Definition latin1_lower_char (c : char) : char :=
  if ((0x41 <=? c) && (c <=? 0x5A))
     || ((0xC0 <=? c) && (c <=? 0xDE) && negb (c =? 0xD7))
  then c + 0x20 else c.

Definition latin1_lower (s : str) : str := latin1_lower_char <$> s.

Definition latin1_isalnum (c : char) : bool :=
  ((0x30 <=? c) && (c <=? 0x39))
  || ((0x41 <=? c) && (c <=? 0x5A))
  || ((0x61 <=? c) && (c <=? 0x7A))
  || bool_decide (c ∈ [0xAA; 0xB2; 0xB3; 0xB5; 0xB9; 0xBA; 0xBC; 0xBD; 0xBE])
  || ((0xC0 <=? c) && (c <=? 0xFF) && negb (c =? 0xD7) && negb (c =? 0xF7)).

Definition normalize_latin1 : str → str := normalize_name latin1_lower latin1_isalnum.

Local Close Scope N_scope.

(** ** import_collected_stats.py: the data model *)

(** What [json.load] returns. Numbers are integers; JSON numbers with a
    fraction or an exponent, and [NaN] and the infinities that [json.load]
    reads too, are outside this model. An object is a [dict], which keeps
    its keys in insertion order. *)
#[warnings="-register-all"] Inductive json :=
| JNull
| JBool (b : bool)
| JInt (z : Z)
| JStr (s : str)
| JArr (items : list json)
| JObj (fields : list (str * json)).

Definition dict := list (str * json).

(** [d.get(k)], and [k in d] as [is_Some] of it. *)
Fixpoint dict_get (d : dict) (k : str) : option json :=
  match d with
  | [] => None
  | (k', v) :: d' => if bool_decide (k' = k) then Some v else dict_get d' k
  end.

(** [d[k] = v] *)
Fixpoint dict_set (d : dict) (k : str) (v : json) : dict :=
  match d with
  | [] => [(k, v)]
  | (k', v') :: d' =>
      if bool_decide (k' = k) then (k', v) :: d' else (k', v') :: dict_set d' k v
  end.

(** [a == b] on these values: [True == 1] and [False == 0] as [bool] is a
    subclass of [int]; lists compare element by element, dicts by keys. *)
Fixpoint py_eq (a b : json) : bool :=
  match a, b with
  | JNull, JNull => true
  | JBool x, JBool y => bool_decide (x = y)
  | JBool x, JInt y => bool_decide (Z.b2z x = y)
  | JInt x, JBool y => bool_decide (x = Z.b2z y)
  | JInt x, JInt y => bool_decide (x = y)
  | JStr x, JStr y => bool_decide (x = y)
  | JArr xs, JArr ys =>
      (fix all2 (xs ys : list json) : bool :=
         match xs, ys with
         | [], [] => true
         | x :: xs', y :: ys' => py_eq x y && all2 xs' ys'
         | _, _ => false
         end) xs ys
  | JObj d1, JObj d2 =>
      bool_decide (length d1 = length d2)
      && (fix all (d : dict) : bool :=
            match d with
            | [] => true
            | (k, v) :: d' =>
                match dict_get d2 k with
                | Some w => py_eq v w
                | None => false
                end && all d'
            end) d1
  | _, _ => false
  end.

(** The exceptions that occur in the scripts. [KeyboardInterrupt] and
    [SystemExit] are not subclasses of [Exception]. *)
Inductive exn :=
| AttributeError
| KeyError
| TypeError
| ValueError
| FileNotFoundError
| JSONDecodeError
| TimeoutException
| UnicodeEncodeError
| KeyboardInterrupt
| SystemExit.

Definition is_Exception (e : exn) : bool :=
  match e with
  | KeyboardInterrupt | SystemExit => false
  | _ => true
  end.

Inductive outcome (A : Type) :=
| Return (a : A)
| Raise (e : exn).
Arguments Return {A} a.
Arguments Raise {A} e.

(** One recorded change, printed as [f"{stat}: {old_value} → {new_value}"]. *)
Record change := Change {
  change_stat : str;
  old_value : json;
  new_value : json
}.

(** The lines the import utility prints, one constructor per [print];
    [Usage] stands for the whole usage text. *)
Inductive message :=
| Error_reading_file (e : exn)
| File_must_contain_a_list
| Entry_is_not_a_valid_object (position : nat)
| Entry_missing_required_field (position : nat) (field : str)
| Entry_has_empty_name (position : nat)
| File_format_is_valid (players : nat)
| Stats_file_not_found (stats_file : string)
| Importing_collected_player_stats
| Rule
| Skipping_entry_with_no_name
| Updated (player_name : str)
| Bullet (c : change)
| And_more_changes (more : nat)
| No_changes_needed (player_name : str)
| Player_not_found_in_dataset (player_name : str)
| Import_summary
| Players_updated (updated_count : nat)
| Players_not_found (not_found_count : nat)
| Backed_up_to (backup_filename : string)
| Saved_to_fpl_data
| No_updates_made
| Sample_file_created
| Use_this_format
| Usage
| Please_provide_a_file_to_validate
| Please_provide_a_file_to_import
| Unknown_command (command : str).

(** A computation that prints and may raise: its outcome and the lines
    printed up to there. *)
Definition M (A : Type) : Type := outcome A * list message.

#[global] Instance M_ret : MRet M := λ A a, (Return a, []).

#[global] Instance M_bind : MBind M := λ A B f m,
  match m with
  | (Return a, out) => let '(r, out') := f a in (r, out ++ out')
  | (Raise e, out) => (Raise e, out)
  end.

(** [print] on a stream that can write the line. What a stream does that
    cannot encode a line is [on_stdout] below. *)
Definition print (m : message) : M unit := (Return (), [m]).
Definition raise {A : Type} (e : exn) : M A := (Raise e, []).
Definition lift {A : Type} (o : outcome A) : M A := (o, []).

(** A file holds a JSON document, or text that [json.load] rejects. *)
Inductive file :=
| FileJson (j : json)
| FileText.

(** [with open(path, 'r') as f: json.load(f)] *)
Definition load_json (fs : gmap string file) (path : string) : outcome json :=
  match fs !! path with
  | None => Raise FileNotFoundError
  | Some FileText => Raise JSONDecodeError
  | Some (FileJson j) => Return j
  end.

(** [os.rename(src, dst)] *)
Definition rename (src dst : string) (fs : gmap string file) : gmap string file :=
  match fs !! src with
  | None => fs
  | Some f => <[dst := f]> (delete src fs)
  end.

(** [for x in v]: the values a loop over [v] sees. *)
Definition py_iter (v : json) : outcome (list json) :=
  match v with
  | JArr items => Return items
  | JObj fields => Return (JStr <$> fields.*1)
  | JStr s => Return ((λ c, JStr [c]) <$> s)
  | _ => Raise TypeError
  end.

(** ** import_collected_stats.py: validation *)

Definition required_fields : list str :=
  [lit "name"; lit "minutes"; lit "goals"; lit "assists"].

(** The loop [for field in required_fields: if field not in player]: the
    first required field the entry lacks. *)
Fixpoint first_missing (player : dict) (fields : list str) : option str :=
  match fields with
  | [] => None
  | field :: fields' =>
      match dict_get player field with
      | None => Some field
      | Some _ => first_missing player fields'
      end
  end.

(** The loop [for i, player in enumerate(data)], from index [i] on. It
    gives [false] where the source returns [False] from inside the loop and
    [true] when the loop runs to its end. *)
Fixpoint validate_entries (i : nat) (data : list json) : M bool :=
  match data with
  | [] => mret true
  | player :: data' =>
      match player with
      | JObj fields =>
          match first_missing fields required_fields with
          | Some field =>
              print (Entry_missing_required_field (i + 1) field);; mret false
          | None =>
              match dict_get fields (lit "name") with
              | None => raise KeyError
              | Some (JStr name) =>
                  match strip name with
                  | [] => print (Entry_has_empty_name (i + 1));; mret false
                  | _ => validate_entries (S i) data'
                  end
              | Some _ => raise AttributeError
              end
          end
      | _ => print (Entry_is_not_a_valid_object (i + 1));; mret false
      end
  end.

Definition validate_stats_file (fs : gmap string file) (stats_file : string) : M bool :=
  match load_json fs stats_file with
  | Raise e =>
      if is_Exception e then print (Error_reading_file e);; mret false
      else raise e
  | Return (JArr data) =>
      ok ← validate_entries 0 data;
      if ok : bool then print (File_format_is_valid (length data));; mret true
      else mret false
  | Return _ => print File_must_contain_a_list;; mret false
  end.

(** ** import_collected_stats.py: merge and update *)

Definition stats_to_update : list str :=
  [lit "minutes"; lit "goals"; lit "assists"; lit "assistsSecond";
   lit "shotsOnTarget"; lit "shots"; lit "keyPasses"; lit "tacklesWon";
   lit "interceptions"; lit "clearances"; lit "blockedShots"; lit "aerialsWon";
   lit "saves"; lit "cleanSheets"; lit "goalsConceded"; lit "pkSaves";
   lit "yellowCards"; lit "redCards"].

(** [{player['name']: i for i, player in enumerate(fpl_data)}], from index
    [i] on. The lookups into it are by a [str], so a name that is a
    number, a boolean or [None] is a key no lookup finds and is left out;
    a list or a dict as a name cannot be hashed. *)
Fixpoint build_player_dict (i : nat) (fpl_data : list json) (acc : gmap str nat)
  : outcome (gmap str nat) :=
  match fpl_data with
  | [] => Return acc
  | JObj player :: rest =>
      match dict_get player (lit "name") with
      | None => Raise KeyError
      | Some (JStr name) => build_player_dict (S i) rest (<[name := i]> acc)
      | Some (JArr _) | Some (JObj _) => Raise TypeError
      | Some _ => build_player_dict (S i) rest acc
      end
  | _ :: _ => Raise TypeError
  end.

(** The loop [for stat in stats_to_update] over the remaining [stats]:
    the player's record after it, and the changes it appended. *)
Fixpoint update_stats (stats : list str) (player_stats original_player : dict)
    (changes : list change) : dict * list change :=
  match stats with
  | [] => (original_player, changes)
  | stat :: stats' =>
      match dict_get player_stats stat with
      | Some new_value =>
          let old_value := default (JInt 0) (dict_get original_player stat) in
          if py_eq new_value old_value
          then update_stats stats' player_stats original_player changes
          else update_stats stats' player_stats
                 (dict_set original_player stat new_value)
                 (changes ++ [Change stat old_value new_value])
      | None => update_stats stats' player_stats original_player changes
      end
  end.

Record import_state := ImportState {
  fpl_data : list json;
  updated_count : nat;
  not_found_count : nat
}.

(** The report of one updated player: at most three changes are shown. *)
Definition print_changes (player_name : str) (changes : list change) : M unit :=
  print (Updated player_name);;
  foldr (λ c k, print (Bullet c);; k) (mret ()) (take 3 changes);;
  if bool_decide (3 < length changes)
  then print (And_more_changes (length changes - 3))
  else mret ().

(** One turn of the loop [for player_stats in collected_stats]. *)
Definition import_one (player_dict : gmap str nat) (st : import_state)
    (player_stats : json) : M import_state :=
  match player_stats with
  | JObj stats =>
      match default (JStr []) (dict_get stats (lit "name")) with
      | JStr name =>
          let player_name := strip name in
          match player_name with
          | [] => print Skipping_entry_with_no_name;; mret st
          | _ =>
              match player_dict !! player_name with
              | Some player_index =>
                  match fpl_data st !! player_index with
                  | Some (JObj original_player) =>
                      let '(updated, changes) :=
                        update_stats stats_to_update stats original_player [] in
                      let data := <[player_index := JObj updated]> (fpl_data st) in
                      match changes with
                      | [] =>
                          print (No_changes_needed player_name);;
                          mret (ImportState data (updated_count st) (not_found_count st))
                      | _ =>
                          print_changes player_name changes;;
                          mret (ImportState data (updated_count st + 1) (not_found_count st))
                      end
                  | _ => raise TypeError
                  end
              | None =>
                  print (Player_not_found_in_dataset player_name);;
                  mret (ImportState (fpl_data st) (updated_count st) (not_found_count st + 1))
              end
          end
      | _ => raise AttributeError
      end
  | _ => raise AttributeError
  end.

Fixpoint import_loop (player_dict : gmap str nat) (st : import_state)
    (collected_stats : list json) : M import_state :=
  match collected_stats with
  | [] => mret st
  | player_stats :: rest =>
      st' ← import_one player_dict st player_stats;
      import_loop player_dict st' rest
  end.

(** [datetime.now()] and [strftime('%Y%m%d-%H%M%S')]. *)
Record datetime := DateTime {
  year : N; month : N; day : N; hour : N; minute : N; second : N
}.

Fixpoint zeros (n : nat) : string :=
  match n with
  | O => ""
  | S n' => "0" +:+ zeros n'
  end.

Definition zero_padded (width : nat) (n : N) : string :=
  let digits := pretty n in
  zeros (width - String.length digits) +:+ digits.

Definition strftime_Ymd_HMS (t : datetime) : string :=
  zero_padded 4 (year t) +:+ zero_padded 2 (month t) +:+ zero_padded 2 (day t)
  +:+ "-" +:+
  zero_padded 2 (hour t) +:+ zero_padded 2 (minute t) +:+ zero_padded 2 (second t).

Definition fpl_data_json : string := "public/fpl-data.json".

(** What [json.dump(fpl_data, f)] writes: the loaded document with the
    records as the loop left them. *)
Definition dumped (loaded : json) (records : list json) : json :=
  match loaded with
  | JArr _ => JArr records
  | _ => loaded
  end.

(** [import_player_stats(stats_file)], run on the files [fs] at the time
    [now]: what it returns, and the files afterwards. *)
Definition import_player_stats (fs : gmap string file) (now : datetime)
    (stats_file : string) : M (bool * gmap string file) :=
  loaded ← lift (load_json fs fpl_data_json);
  match fs !! stats_file with
  | None => print (Stats_file_not_found stats_file);; mret (false, fs)
  | Some _ =>
      collected ← lift (load_json fs stats_file);
      records ← lift (py_iter loaded);
      player_dict ← lift (build_player_dict 0 records ∅);
      print Importing_collected_player_stats;;
      print Rule;;
      collected_stats ← lift (py_iter collected);
      st ← import_loop player_dict (ImportState records 0 0) collected_stats;
      print Rule;;
      print Import_summary;;
      print (Players_updated (updated_count st));;
      print (Players_not_found (not_found_count st));;
      if bool_decide (0 < updated_count st)
      then
        let backup_filename :=
          "fpl-data-backup-" +:+ strftime_Ymd_HMS now +:+ ".json" in
        let fs := rename fpl_data_json ("public/" +:+ backup_filename) fs in
        let fs := <[fpl_data_json := FileJson (dumped loaded (fpl_data st))]> fs in
        print (Backed_up_to backup_filename);;
        print Saved_to_fpl_data;;
        mret (true, fs)
      else
        print No_updates_made;;
        mret (false, fs)
  end.

(** What [create_sample_stats_file] writes. *)
Definition sample_data : json :=
  JArr [JObj [
    (lit "name", JStr (lit "Martin Zubimendi"));
    (lit "team", JStr (lit "ARS"));
    (lit "position", JStr (lit "M"));
    (lit "minutes", JInt 2430);
    (lit "goals", JInt 3);
    (lit "assists", JInt 5);
    (lit "assistsSecond", JInt 2);
    (lit "shotsOnTarget", JInt 15);
    (lit "shots", JInt 45);
    (lit "keyPasses", JInt 67);
    (lit "tacklesWon", JInt 89);
    (lit "interceptions", JInt 56);
    (lit "clearances", JInt 23);
    (lit "blockedShots", JInt 12);
    (lit "aerialsWon", JInt 34);
    (lit "saves", JInt 0);
    (lit "cleanSheets", JInt 0);
    (lit "goalsConceded", JInt 0);
    (lit "pkSaves", JInt 0);
    (lit "yellowCards", JInt 4);
    (lit "redCards", JInt 0);
    (lit "previous_club", JStr (lit "Real Sociedad"));
    (lit "previous_league", JStr (lit "La Liga"));
    (lit "data_source", JStr (lit "FBref 2024-25"));
    (lit "collection_date", JStr (lit "2025-01-16"));
    (lit "notes", JStr (lit "All competitions combined"))]].

(** The command line after [sys.argv[1].lower()] has been compared with the
    three command names; the file is [sys.argv[2]] when it is there. *)
Inductive command :=
| No_command
| Sample
| Validate (file : option string)
| Import (file : option string)
| Other_command (command : str).

(** The [__main__] block: the lines printed and the files afterwards. *)
Definition main (cmd : command) (fs : gmap string file) (now : datetime)
  : M (gmap string file) :=
  match cmd with
  | No_command => print Usage;; mret fs
  | Sample =>
      let fs := <["collected_stats_sample.json" := FileJson sample_data]> fs in
      print Sample_file_created;;
      print Use_this_format;;
      mret fs
  | Validate None => print Please_provide_a_file_to_validate;; mret fs
  | Validate (Some stats_file) => validate_stats_file fs stats_file;; mret fs
  | Import None => print Please_provide_a_file_to_import;; mret fs
  | Import (Some stats_file) =>
      ok ← validate_stats_file fs stats_file;
      if ok : bool
      then r ← import_player_stats fs now stats_file; mret r.2
      else mret fs
  | Other_command c => print (Unknown_command c);; mret fs
  end.

(** ** fbrefscraper.py and multi_league_scraper.py: the retry loop *)

(** One table to fetch: the key of [dataframes] it is stored under, the
    page and the id of the table in it. *)
Record source := Source {
  stat_type : string;
  url : string;
  table_id : string
}.

(** What the loop does that the outside sees, in order. *)
Inductive event :=
| Acquire (src : source)
| Attempt_failed (ordinal : nat) (e : exn)
| Sleep (seconds : nat).

Section Retry.

(** The browser and the site behind it. [acquire] is the body of the [try]:
    [get_table_as_df], followed in multi_league_scraper.py by
    [filter_players_from_df]. It returns a dataframe or raises, and leaves
    the world in a new state; so does [time.sleep]. *)
Variable World : Type.
Variable acquire : source → World → outcome (list row) * World.
Variable sleep : nat → World → World.

(** The loop is modelled for any budget of attempts and any delay; the
    scripts run it with [MAX_RETRIES] and [RETRY_DELAY]. *)
Variable max_attempts : nat.
Variable delay : nat.

Record scraper := Scraper {
  world : World;
  dataframes : gmap string (list row);
  trace : list event
}.

Definition emit (ev : event) (st : scraper) : scraper :=
  Scraper (world st) (dataframes st) (trace st ++ [ev]).

Definition store (key : string) (df : list row) (st : scraper) : scraper :=
  Scraper (world st) (<[key := df]> (dataframes st)) (trace st).

Definition time_sleep (seconds : nat) (st : scraper) : scraper :=
  emit (Sleep seconds) (Scraper (sleep seconds (world st)) (dataframes st) (trace st)).

(** [for attempt in range(max_attempts)], over the attempts that remain.
    [except Exception] does not catch an exception outside that class,
    which leaves the loop and the function. *)
Fixpoint retry_loop (src : source) (attempts : list nat) (st : scraper)
  : outcome scraper :=
  match attempts with
  | [] => Return st
  | attempt :: attempts' =>
      let '(result, w) := acquire src (world st) in
      let st := emit (Acquire src) (Scraper w (dataframes st) (trace st)) in
      match result with
      | Return df => Return (store (stat_type src) df st)
      | Raise e =>
          if is_Exception e then
            let st := emit (Attempt_failed (attempt + 1) e) st in
            if bool_decide (attempt + 1 = max_attempts)
            then retry_loop src attempts' (store (stat_type src) [] st)
            else retry_loop src attempts' (time_sleep delay st)
          else Raise e
      end
  end.

Definition fetch_with_retry (src : source) (st : scraper) : outcome scraper :=
  retry_loop src (seq 0 max_attempts) st.

(** The loop over the sources, with its pause after each of them. *)
Fixpoint scrape (sources : list source) (st : scraper) : outcome scraper :=
  match sources with
  | [] => Return st
  | src :: rest =>
      match fetch_with_retry src st with
      | Return st' => scrape rest (time_sleep 2 st')
      | Raise e => Raise e
      end
  end.

(** The world after [n] failed attempts, each followed by the delay. *)
Fixpoint world_after (src : source) (n : nat) (w : World) : World :=
  match n with
  | O => w
  | S n' => world_after src n' (sleep delay (acquire src w).2)
  end.

End Retry.

(** The constants of the scripts. *)
Definition MAX_RETRIES : nat := 3.
Definition RETRY_DELAY : nat := 5.

(** The loop of the scripts over their tables. *)
Definition fetch_tables (World : Type)
    (acquire : source → World → outcome (list row) * World)
    (sleep : nat → World → World) (sources : list source) (st : scraper World)
  : outcome (scraper World) :=
  scrape World acquire sleep MAX_RETRIES RETRY_DELAY sources st.

Arguments world {World} _.
Arguments dataframes {World} _.
Arguments trace {World} _.

Definition is_acquire (ev : event) : bool :=
  match ev with Acquire _ => true | _ => false end.

Definition is_sleep (seconds : nat) (ev : event) : bool :=
  match ev with Sleep n => bool_decide (n = seconds) | _ => false end.

(** How often the acquisition function was called, and how often the loop
    slept for [seconds], in a stretch of the trace. *)
Definition acquisitions (evs : list event) : nat :=
  length (List.filter is_acquire evs).

Definition sleeps (seconds : nat) (evs : list event) : nat :=
  length (List.filter (is_sleep seconds) evs).

(** ** The scrapers: positions and ids *)






(** [for i, player in enumerate(player_list): player['id'] = str(i + 1)],
    from index [i] on. *)
Fixpoint assign_ids (i : nat) (player_list : list dict) : list dict :=
  match player_list with
  | [] => []
  | player :: rest =>
      dict_set player (lit "id") (JStr (lit (pretty (i + 1)))) :: assign_ids (S i) rest
  end.

(** ** multi_league_scraper.py: the filter *)

Module MultiLeague.

(** An entry of [LEAGUE_CONFIGS[...]["players"]]. *)
Record player := Player {
  name : str;
  club : str
}.

Section Filter.
Variable lower : str → str.

(** [s.replace("'", "")] and [s.replace("-", " ")] *)
Definition remove_apostrophes (s : str) : str :=
  List.filter (λ c, negb (c =? 0x27)%N) s.

Definition hyphens_to_spaces (s : str) : str :=
  (λ c, if (c =? 0x2D)%N then SPACE else c) <$> s.

(** The [normalize_name] local to [filter_players_from_df]. *)
Definition normalize_name (name : str) : str :=
  hyphens_to_spaces (remove_apostrophes (strip (lower name))).

(** The keys of [target_names]. *)
Definition target_names (target_players : list player) : list str :=
  (λ p, normalize_name (name p)) <$> target_players.

Definition keeps (target_players : list player) (r : row) : bool :=
  bool_decide (normalize_name (py_str (row_get r (lit "Player") (CellStr [])))
               ∈ target_names target_players).

Definition filter_players_from_df (df : list row) (target_players : list player)
  : list row :=
  if df_empty df then df
  else List.filter (keeps target_players) df.

End Filter.
End MultiLeague.

(** ** targeted_player_scraper.py: one league *)

Module Targeted.

Definition SEASON : string := "2024-2025".

(** An entry of [TARGET_PLAYERS]. *)
Record league_config := LeagueConfig {
  comp_id : string;
  name : string;
  players : list target
}.

Definition build_urls_for_league (cfg : league_config) : gmap string string :=
  {[ "standard" := "https://fbref.com/en/comps/" +:+ comp_id cfg +:+ "/" +:+ SEASON
                   +:+ "/stats/" +:+ SEASON +:+ "-" +:+ name cfg +:+ "-Stats" ]}.

Section Scrape.
Variable lower : str → str.
Variable isalnum : char → bool.
Variable World : Type.
Variable acquire : source → World → outcome (list row) * World.

(** The table is asked for once; any [Exception] in the [try] gives the
    empty dataframe. *)
Definition scrape_targeted_players (cfg : league_config) (w : World)
  : outcome (gmap string (list row)) * World :=
  match build_urls_for_league cfg !! "standard" with
  | None => (Return {[ "standard" := [] ]}, w)
  | Some url =>
      let '(result, w) := acquire (Source "standard" url "stats_standard") w in
      match result with
      | Return df =>
          (Return {[ "standard" := find_players_with_debug lower isalnum df (players cfg) ]},
           w)
      | Raise e =>
          if is_Exception e then (Return {[ "standard" := [] ]}, w) else (Raise e, w)
      end
  end.

End Scrape.
End Targeted.

(** ** Notions the properties are stated with *)

(** A string in which white space occurs only as single spaces; [in_run]
    tells that the character before the string was white space. *)
Fixpoint collapsed (in_run : bool) (s : str) : bool :=
  match s with
  | [] => true
  | c :: s' =>
      if isspace c then negb in_run && (c =? SPACE)%N && collapsed true s'
      else collapsed false s'
  end.

Local Open Scope N_scope.

(** What the seven substitutions of [fold_accents] do to one character. *)
Definition fold_char (c : char) : char :=
  sub_char [0xE7] 0x63
    (sub_char [0xF1] 0x6E
       (sub_char [0xF9; 0xFA; 0xFB; 0xFC] 0x75
          (sub_char [0xF2; 0xF3; 0xF4; 0xF5; 0xF6; 0xF8] 0x6F
             (sub_char [0xEC; 0xED; 0xEE; 0xEF] 0x69
                (sub_char [0xE8; 0xE9; 0xEA; 0xEB] 0x65
                   (sub_char [0xE0; 0xE1; 0xE2; 0xE3; 0xE4; 0xE5] 0x61 c)))))).

(** The letters the accents are folded to. *)
Definition folded_letters : list char := [0x61; 0x65; 0x69; 0x6F; 0x75; 0x6E; 0x63].

Local Close Scope N_scope.

(** The characters of a normalised name: each is left alone by every step
    of [normalize_name]. *)
Definition settled (lower : str → str) (isalnum : char → bool) (c : char) : Prop :=
  lower [c] = [c] ∧ fold_char c = c ∧ isword isalnum c || isspace c = true.

Section MatcherSpec.
Variable lower : str → str.
Variable isalnum : char → bool.

(** A row the matcher accepts for a target. *)
Definition accepted (t : target) (r : row) : bool :=
  name_matches lower isalnum t r && club_matches lower isalnum t r.

(** A row whose normalised name is one of the target's normalised names
    and whose normalised club is one of its normalised clubs. *)
Definition exact_match (t : target) (r : row) : bool :=
  bool_decide (norm_player lower isalnum r
               ∈ normalize_name lower isalnum <$> primary_name t :: alt_names t)
  && bool_decide (norm_team lower isalnum r
                  ∈ normalize_name lower isalnum <$> club t :: alt_clubs t).

End MatcherSpec.

(** A row whose cell in column [col] is the empty string, or which has no
    such column. *)
Definition blank (r : row) (col : str) : Prop :=
  row_get r col (CellStr []) = CellStr [].

(** The first La Liga target of [TARGET_PLAYERS]. *)
Definition zubimendi : target :=
  Target (lit "Martin Zubimendi")
         [lit "Mart" ++ [0xED%N] ++ lit "n Zubimendi"; lit "M. Zubimendi"; lit "Zubimendi"]
         (lit "Real Sociedad")
         [lit "Real Sociedad"; lit "Sociedad"].

Definition player_row (player squad : string) : row :=
  [(lit "Player", CellStr (lit player)); (lit "Squad", CellStr (lit squad))].

(** An entry the validation loop passes over: an object that has the four
    required fields and whose name is a string with more than white space
    in it. *)
Definition well_formed (entry : json) : bool :=
  match entry with
  | JObj fields =>
      match first_missing fields required_fields with
      | Some _ => false
      | None =>
          match dict_get fields (lit "name") with
          | Some (JStr name) =>
              match strip name with [] => false | _ => true end
          | _ => false
          end
      end
  | _ => false
  end.

(** What the loop over [stats_to_update] records for one statistic: the
    change, when the update has the statistic and its value is not equal
    to the current one, [0] standing for a statistic the record lacks. *)
Definition change_of (player_stats original_player : dict) (stat : str) : option change :=
  match dict_get player_stats stat with
  | Some new_value =>
      let old_value := default (JInt 0) (dict_get original_player stat) in
      if py_eq new_value old_value then None
      else Some (Change stat old_value new_value)
  | None => None
  end.

(** The value of field [f] after the update: the update's value for a
    listed statistic that differs, and the current value otherwise. *)
Definition merged_value (player_stats original_player : dict) (f : str) : option json :=
  if bool_decide (f ∈ stats_to_update)
  then match change_of player_stats original_player f with
       | Some c => Some (new_value c)
       | None => dict_get original_player f
       end
  else dict_get original_player f.

(** A record of the dataset called [name]. *)
Definition named (name : str) (player : json) : Prop :=
  ∃ fields, player = JObj fields ∧ dict_get fields (lit "name") = Some (JStr name).

(** No record of the dataset is called [name]. *)
Definition no_record_named (name : str) (data : list json) : Prop :=
  ∀ j player, data !! j = Some player → ¬ named name player.

(** The record at index [i] is called [name], and no record after it is. *)
Definition last_named (name : str) (i : nat) (data : list json) : Prop :=
  (∃ player, data !! i = Some player ∧ named name player)
  ∧ ∀ j player, i < j → data !! j = Some player → ¬ named name player.

(** [player_dict] indexes the dataset: a name it has leads to the last
    record of that name, and a name it lacks is the name of no record. *)
Definition indexes (player_dict : gmap str nat) (data : list json) : Prop :=
  ∀ name,
    match player_dict !! name with
    | Some i => last_named name i data
    | None => no_record_named name data
    end.

(** An attempt that fails: the acquisition raised an [Exception]. *)
Definition fails (result : outcome (list row)) : bool :=
  match result with
  | Raise e => is_Exception e
  | Return _ => false
  end.

Definition standard : source :=
  Source "standard"
         "https://fbref.com/en/comps/9/2024-2025/stats/2024-2025-Premier-League-Stats"
         "stats_standard".

Definition shooting : source :=
  Source "shooting"
         "https://fbref.com/en/comps/9/2024-2025/shooting/2024-2025-Premier-League-Stats"
         "stats_shooting".

(** Two sites to run the loop against, the world being the number of
    requests made so far: one where the table is never found, and one
    that answers the third request. *)
Definition site_down (src : source) (requests : nat) : outcome (list row) * nat :=
  (Raise ValueError, S requests).

Definition site_slow (src : source) (requests : nat) : outcome (list row) * nat :=
  (if bool_decide (requests < 2) then Raise TimeoutException
   else Return [[(lit "Player", CellStr (lit "Bukayo Saka")); (lit "Squad", CellStr (lit "Arsenal"))]],
   S requests).

Definition no_wait (seconds : nat) (requests : nat) : nat := requests.

(** A date and time the clock can show: the fields in their ranges and a
    year of four digits. *)
Definition on_the_clock (t : datetime) : Prop :=
  (1000 ≤ year t ≤ 9999 ∧ 1 ≤ month t ≤ 12 ∧ 1 ≤ day t ≤ 31
   ∧ hour t ≤ 23 ∧ minute t ≤ 59 ∧ second t ≤ 59)%N.

Definition is_digit (a : Ascii.ascii) : bool :=
  (48 <=? Ascii.nat_of_ascii a) && (Ascii.nat_of_ascii a <=? 57).

(** A string of exactly [width] decimal digits. *)
Definition digits (width : nat) (s : string) : bool :=
  bool_decide (String.length s = width) && forallb is_digit (String.list_ascii_of_string s).

(** The shape [YYYYMMDD-HHMMSS]. *)
Definition stamp_shaped (s : string) : bool :=
  digits 8 (String.substring 0 8 s)
  && bool_decide (String.substring 8 1 s = "-")
  && digits 6 (String.substring 9 6 s)
  && bool_decide (String.length s = 15).

(** ** Data the properties are run on *)

(** An entry with a name and some integer statistics. *)
Definition player_entry (name : string) (stats : list (string * Z)) : json :=
  JObj ((lit "name", JStr (lit name)) :: ((λ kv, (lit kv.1, JInt kv.2)) <$> stats)).

Definition index_of_A : gmap str nat := {[ lit "A" := 0 ]}.

Definition morning : datetime := DateTime 2025 1 16 9 30 5.

(** A dataset with the one record [{"name": "A", "goals": 1}] and a
    collected-stats file that raises the goals to 2. *)
Definition files_before : gmap string file :=
  {[ fpl_data_json := FileJson (JArr [player_entry "A" [("goals", 1%Z)]]);
     "stats.json" := FileJson (JArr [player_entry "A" [("goals", 2%Z)]]) ]}.

Definition files_after : gmap string file :=
  {[ fpl_data_json := FileJson (JArr [player_entry "A" [("goals", 2%Z)]]);
     "public/fpl-data-backup-20250116-093005.json"
       := FileJson (JArr [player_entry "A" [("goals", 1%Z)]]);
     "stats.json" := FileJson (JArr [player_entry "A" [("goals", 2%Z)]]) ]}.

(** Collected-stats files for the validation. *)
Definition second_lacks_assists : list json :=
  [player_entry "A" [("minutes", 90); ("goals", 1); ("assists", 0)]%Z;
   player_entry "B" [("minutes", 90); ("goals", 1)]%Z].

Definition first_lacks_goals : list json :=
  [player_entry "A" [("minutes", 90); ("assists", 0)]%Z;
   player_entry "B" [("minutes", 90); ("goals", 1)]%Z].

Definition numeric_name : list json :=
  [JObj [(lit "name", JInt 7); (lit "minutes", JInt 90); (lit "goals", JInt 1);
         (lit "assists", JInt 0)]].

(** A record and an update that differ in the club, a field that is not in
    [stats_to_update]. *)
Definition at_arsenal : dict := [(lit "name", JStr (lit "A")); (lit "team", JStr (lit "ARS"))].
Definition at_sociedad : dict := [(lit "name", JStr (lit "A")); (lit "team", JStr (lit "RSO"))].

(** The files after the command [sample]. *)
Definition sample_files : gmap string file :=
  {[ "collected_stats_sample.json" := FileJson sample_data ]}.

Definition stats_json (data : list json) : gmap string file :=
  {[ "stats.json" := FileJson (JArr data) ]}.


(** ** Notions and data of the further properties *)

(** The dataset after the loop, against the dataset before it: as many
    records, what is not an object as it was, and in an object every field
    outside [stats_to_update] as it was. *)
Definition kept (data data' : list json) : Prop :=
  length data' = length data
  ∧ ∀ i x, data !! i = Some x →
      ∃ y, data' !! i = Some y
           ∧ match x with
             | JObj fields =>
                 ∃ fields', y = JObj fields'
                   ∧ ∀ f, f ∉ stats_to_update → dict_get fields' f = dict_get fields f
             | _ => y = x
             end.

(** A value that is not a list or an object. *)
Definition scalar (v : json) : bool :=
  match v with
  | JArr _ | JObj _ => false
  | _ => true
  end.

(** The first line printed for an entry of the collected statistics, and
    the two kinds of it that the summary counts. *)
Definition headline (m : message) : bool :=
  match m with
  | Skipping_entry_with_no_name | Updated _ | No_changes_needed _
  | Player_not_found_in_dataset _ => true
  | _ => false
  end.

Definition reports_update (m : message) : bool :=
  match m with Updated _ => true | _ => false end.

Definition reports_missing (m : message) : bool :=
  match m with Player_not_found_in_dataset _ => true | _ => false end.

(** The stream that [print] writes to encodes in UTF-8, which has a code
    for every code point but the surrogates, and [print] raises
    [UnicodeEncodeError] on a line that holds one. A line holds what the
    script puts into it: a name, and in the line of a change [str] of the
    two values, which is the string itself for a string and has the
    surrogates escaped for a string inside a list or a dict. *)
Definition encodable (s : str) : bool :=
  forallb (λ c, negb ((0xD800 <=? c) && (c <=? 0xDFFF))%N) s.

Definition encodable_value (v : json) : bool :=
  match v with
  | JStr s => encodable s
  | _ => true
  end.

Definition printable (m : message) : bool :=
  match m with
  | Entry_missing_required_field _ field => encodable field
  | Updated player_name | No_changes_needed player_name
  | Player_not_found_in_dataset player_name => encodable player_name
  | Bullet c =>
      encodable (change_stat c) && encodable_value (old_value c)
      && encodable_value (new_value c)
  | Unknown_command command => encodable command
  | _ => true
  end.

(** The lines of a run up to the first that cannot be encoded, and whether
    there was none. *)
Fixpoint written (out : list message) : list message * bool :=
  match out with
  | [] => ([], true)
  | m :: out' =>
      if printable m then let '(lines, ok) := written out' in (m :: lines, ok)
      else ([], false)
  end.

(** A run on that stream. No [print] of the script is inside a [try], so
    the first line that cannot be encoded ends the run with the exception. *)
Definition on_stdout {A : Type} (run : M A) : M A :=
  let '(lines, ok) := written run.2 in
  if ok : bool then (run.1, lines) else (Raise UnicodeEncodeError, lines).

(** An entry or a record all of whose values can be shown. *)
Definition shown (entry : json) : bool :=
  match entry with
  | JObj fields => forallb (λ kv, encodable_value kv.2) fields
  | _ => true
  end.

(** What the loop prints first for an entry: that it was merged into the
    record of its name, or that there is no such record. *)
Definition reported (player_dict : gmap str nat) (entry : json) (line : message) : Prop :=
  ∃ stats name,
    entry = JObj stats ∧ dict_get stats (lit "name") = Some (JStr name)
    ∧ match player_dict !! strip name with
      | Some _ => line = Updated (strip name) ∨ line = No_changes_needed (strip name)
      | None => line = Player_not_found_in_dataset (strip name)
      end.

(** A collected-stats file with one complete entry for player A. *)
Definition complete_update : list json :=
  [player_entry "A" [("minutes", 90); ("goals", 2); ("assists", 1)]%Z].

Definition files_with_complete_update : gmap string file :=
  {[ fpl_data_json := FileJson (JArr [player_entry "A" [("goals", 1%Z)]]);
     "stats.json" := FileJson (JArr complete_update) ]}.

(** The same dataset with a collected-stats file whose one entry has a lone
    surrogate for its name, as [json.load] makes of the escape [\ud800]. *)
Definition files_with_surrogate : gmap string file :=
  {[ fpl_data_json := FileJson (JArr [player_entry "A" [("goals", 1%Z)]]);
     "stats.json"
       := FileJson (JArr [JObj [(lit "name", JStr [0xD800%N]); (lit "minutes", JInt 90);
                                (lit "goals", JInt 2); (lit "assists", JInt 1)]]) ]}.

(** A site that is interrupted from the keyboard during the second request. *)
Definition interrupted (src : source) (requests : nat) : outcome (list row) * nat :=
  (if bool_decide (requests < 1) then Raise TimeoutException else Raise KeyboardInterrupt,
   S requests).


(** * Properties *)

(** ** Strings *)

Lemma startswith_refl (s : str) : startswith s s = true.
Proof. induction s as [|c s IH]; simpl; [done|]. by rewrite N.eqb_refl. Qed.

Lemma contains_refl (s : str) : contains s s = true.
Proof. destruct s; simpl; [done|]. by rewrite N.eqb_refl, startswith_refl. Qed.

Lemma contains_empty (s : str) : contains [] s = true.
Proof. by destruct s. Qed.

Lemma rstrip_cons (c : char) (s : str) :
  isspace c = false → rstrip (c :: s) = c :: rstrip s.
Proof. intros Hc. simpl. rewrite Hc. by destruct (rstrip s). Qed.

Lemma rstrip_idem (s : str) : rstrip (rstrip s) = rstrip s.
Proof.
  induction s as [|c s IH]; simpl; [done|].
  destruct (rstrip s) as [|d r] eqn:E.
  - destruct (isspace c) eqn:Hc; simpl; [done|]. by rewrite Hc.
  - change (rstrip (c :: d :: r)) with
      (match rstrip (d :: r) with
       | [] => if isspace c then [] else [c]
       | r' => c :: r'
       end).
    by rewrite IH.
Qed.

Lemma lstrip_head (s : str) :
  lstrip s = [] ∨ ∃ c t, lstrip s = c :: t ∧ isspace c = false.
Proof.
  induction s as [|c s IH]; simpl; [by left|].
  destruct (isspace c) eqn:Hc; [done|]. right. eauto.
Qed.

Lemma strip_idem (s : str) : strip (strip s) = strip s.
Proof.
  unfold strip. destruct (lstrip_head s) as [->|(c & t & -> & Hc)]; [done|].
  rewrite (rstrip_cons _ _ Hc). simpl lstrip. rewrite Hc.
  rewrite <- (rstrip_cons _ _ Hc). apply rstrip_idem.
Qed.

Lemma elem_of_lstrip (c : char) (s : str) : c ∈ lstrip s → c ∈ s.
Proof.
  induction s as [|d s IH]; simpl; [done|].
  destruct (isspace d); [|done]. intros H. right. auto.
Qed.

Lemma elem_of_rstrip (c : char) (s : str) : c ∈ rstrip s → c ∈ s.
Proof.
  induction s as [|d s IH]; simpl; [done|].
  destruct (rstrip s) as [|e r].
  - destruct (isspace d); [by intros ?%elem_of_nil|].
    intros ->%list_elem_of_singleton. left.
  - intros [->|H]%elem_of_cons; [left|right; auto].
Qed.

Lemma elem_of_strip (c : char) (s : str) : c ∈ strip s → c ∈ s.
Proof. intros H. by apply elem_of_lstrip, elem_of_rstrip. Qed.

Lemma elem_of_re_sub_spaces (b : bool) (c : char) (s : str) :
  c ∈ re_sub_spaces b s → c = SPACE ∨ c ∈ s.
Proof.
  revert b. induction s as [|d s IH]; intros b; simpl; [by intros ?%elem_of_nil|].
  destruct (isspace d).
  - destruct b.
    + intros [?|?]%IH; [by left|right; by right].
    + intros [->|[?|?]%IH]%elem_of_cons; [by left|by left|right; by right].
  - intros [->|[?|?]%IH]%elem_of_cons; [right; left|by left|right; by right].
Qed.

Lemma re_sub_spaces_collapsed (b : bool) (s : str) :
  collapsed b (re_sub_spaces b s) = true.
Proof.
  revert b. induction s as [|c s IH]; intros b; simpl; [done|].
  destruct (isspace c) eqn:Hc.
  - destruct b; [done|]. simpl. by rewrite IH.
  - simpl. by rewrite Hc.
Qed.

Lemma collapsed_fixed (b : bool) (s : str) :
  collapsed b s = true → re_sub_spaces b s = s.
Proof.
  revert b. induction s as [|c s IH]; intros b; simpl; [done|].
  destruct (isspace c).
  - intros [[Hb Hc%N.eqb_eq]%andb_true_iff Hs]%andb_true_iff.
    destruct b; [done|]. rewrite (IH _ Hs). by rewrite Hc.
  - intros Hs. by rewrite (IH _ Hs).
Qed.

Lemma collapsed_weaken (s : str) : collapsed true s = true → collapsed false s = true.
Proof. destruct s as [|c s]; simpl; [done|]. by destruct (isspace c). Qed.

Lemma collapsed_lstrip (s : str) :
  collapsed false s = true → collapsed false (lstrip s) = true.
Proof.
  induction s as [|c s IH]; simpl; [done|].
  destruct (isspace c) eqn:Hc; simpl; [|by rewrite Hc].
  intros [_ Hs]%andb_true_iff. by apply IH, collapsed_weaken.
Qed.

Lemma collapsed_rstrip (b : bool) (s : str) :
  collapsed b s = true → collapsed b (rstrip s) = true.
Proof.
  revert b. induction s as [|c s IH]; intros b; [done|].
  cbn [collapsed]. destruct (isspace c) eqn:Hc.
  - intros [Hb Hs%IH]%andb_true_iff. simpl. rewrite Hc.
    destruct (rstrip s); [done|]. cbn [collapsed] in *. rewrite Hc.
    by rewrite Hb, Hs.
  - intros Hs%IH. rewrite (rstrip_cons _ _ Hc). simpl. by rewrite Hc.
Qed.

Lemma collapsed_strip (s : str) :
  collapsed false s = true → collapsed false (strip s) = true.
Proof. intros H. by apply collapsed_rstrip, collapsed_lstrip. Qed.

(** ** Normalisation *)

Local Open Scope N_scope.

Lemma fold_accents_fmap (s : str) : fold_accents s = fold_char <$> s.
Proof.
  unfold fold_accents, re_sub_class, fold_char.
  induction s as [|c s IH]; [done|]. cbn [fmap list_fmap] in *. by rewrite IH.
Qed.

Lemma fold_char_letter (c : char) : c ∈ SPACE :: folded_letters → fold_char c = c.
Proof.
  intros H. unfold folded_letters in H.
  repeat (apply elem_of_cons in H as [->|H]; [by vm_compute|]).
  by apply elem_of_nil in H.
Qed.

Lemma sub_char_cases (cls : list char) (r c : char) :
  sub_char cls r c = r ∨ sub_char cls r c = c.
Proof. unfold sub_char. case_bool_decide; auto. Qed.

Lemma fold_char_cases (c : char) :
  fold_char c = c ∨ fold_char c ∈ folded_letters.
Proof.
  unfold fold_char.
  destruct (sub_char_cases [0xE0; 0xE1; 0xE2; 0xE3; 0xE4; 0xE5] 0x61 c) as [->| ->];
    [right; vm_compute; set_solver|].
  destruct (sub_char_cases [0xE8; 0xE9; 0xEA; 0xEB] 0x65 c) as [->| ->];
    [right; vm_compute; set_solver|].
  destruct (sub_char_cases [0xEC; 0xED; 0xEE; 0xEF] 0x69 c) as [->| ->];
    [right; vm_compute; set_solver|].
  destruct (sub_char_cases [0xF2; 0xF3; 0xF4; 0xF5; 0xF6; 0xF8] 0x6F c) as [->| ->];
    [right; vm_compute; set_solver|].
  destruct (sub_char_cases [0xF9; 0xFA; 0xFB; 0xFC] 0x75 c) as [->| ->];
    [right; vm_compute; set_solver|].
  destruct (sub_char_cases [0xF1] 0x6E c) as [->| ->];
    [right; vm_compute; set_solver|].
  destruct (sub_char_cases [0xE7] 0x63 c) as [->| ->];
    [right; vm_compute; set_solver|by left].
Qed.

Lemma fold_char_idem (c : char) : fold_char (fold_char c) = fold_char c.
Proof.
  destruct (fold_char_cases c) as [H|H]; [by rewrite !H|].
  apply fold_char_letter. by right.
Qed.

Section Normalisation.

Variable lower : str → str.
Variable isalnum : char → bool.

(** What [str.lower] guarantees, for every version of the Unicode tables:
    a character it produces is left alone by it, so is a string made of
    characters it leaves alone, and so are the letters the accents are
    folded to and the space. *)
Hypothesis lower_stable : ∀ (s : str) (c : char), c ∈ lower s → lower [c] = [c].
Hypothesis lower_fixed : ∀ s : str, Forall (λ c, lower [c] = [c]) s → lower s = s.
Hypothesis lower_plain : Forall (λ c, lower [c] = [c]) (SPACE :: folded_letters).

Local Abbreviation normalize := (normalize_name lower isalnum).

Local Abbreviation stays := (settled lower isalnum).

Lemma settled_space : stays SPACE.
Proof.
  unfold settled. split_and!; [|by vm_compute|by apply orb_true_r].
  eapply Forall_forall in lower_plain; [done|left].
Qed.

Lemma settled_normalize (s : str) : Forall stays (normalize s).
Proof.
  apply Forall_forall. intros c Hc. destruct s as [|c0 s0]; [by apply elem_of_nil in Hc|].
  unfold normalize_name in Hc. cbv zeta in Hc.
  apply elem_of_strip, elem_of_re_sub_spaces in Hc as [->|Hc]; [apply settled_space|].
  unfold re_sub_punct in Hc. apply list_elem_of_fmap in Hc as (d & -> & Hd).
  destruct (isword isalnum d || isspace d) eqn:Hw; [|apply settled_space].
  rewrite fold_accents_fmap in Hd. apply list_elem_of_fmap in Hd as (e & -> & He).
  apply elem_of_strip, lower_stable in He.
  split_and!; [|apply fold_char_idem|done].
  destruct (fold_char_cases e) as [->|Hl]; [done|].
  eapply Forall_forall in lower_plain; [done|by right].
Qed.

Lemma re_sub_punct_fixed (s : str) :
  Forall stays s → re_sub_punct isalnum s = s.
Proof.
  unfold re_sub_punct. induction 1 as [|c s (_ & _ & Hc) _ IH]; [done|].
  cbn [fmap list_fmap] in *. by rewrite Hc, IH.
Qed.

Lemma fold_accents_fixed (s : str) : Forall stays s → fold_accents s = s.
Proof.
  rewrite fold_accents_fmap. induction 1 as [|c s (_ & Hc & _) _ IH]; [done|].
  cbn [fmap list_fmap] in *. by rewrite Hc, IH.
Qed.

Lemma lower_settled (s : str) : Forall stays s → lower s = s.
Proof. intros H. apply lower_fixed. eapply Forall_impl; [done|]. by intros c []. Qed.

Lemma collapsed_normalize (s : str) : collapsed false (normalize s) = true.
Proof. destruct s; [done|]. apply collapsed_strip, re_sub_spaces_collapsed. Qed.

Lemma strip_normalize (s : str) : strip (normalize s) = normalize s.
Proof. destruct s; [done|]. apply strip_idem. Qed.

Lemma normalize_fixed (r : str) :
  Forall stays r → collapsed false r = true → strip r = r → normalize r = r.
Proof.
  intros Hs Hc Hr. destruct r as [|c r]; [done|].
  unfold normalize_name. cbv zeta.
  rewrite (lower_settled _ Hs), Hr.
  rewrite (fold_accents_fixed _ Hs), (re_sub_punct_fixed _ Hs).
  by rewrite (collapsed_fixed _ _ Hc).
Qed.

(** C5: normalisation is idempotent: normalising a normalised name gives
    it back, for every string. *)
Theorem normalize_name_idempotent (s : str) : normalize (normalize s) = normalize s.
Proof.
  apply normalize_fixed;
    [apply settled_normalize|apply collapsed_normalize|apply strip_normalize].
Qed.

End Normalisation.

Lemma latin1_lower_char_idem (c : char) :
  latin1_lower_char (latin1_lower_char c) = latin1_lower_char c.
Proof.
  unfold latin1_lower_char at 2.
  match goal with |- context [if ?b then _ else c] => destruct b eqn:E end; [|done].
  rewrite !orb_true_iff, !andb_true_iff, negb_true_iff, !N.leb_le, N.eqb_neq in E.
  unfold latin1_lower_char.
  repeat match goal with
         | |- context [(?a <=? ?b)] => destruct (N.leb_spec a b)
         | |- context [(?a =? ?b)] => destruct (N.eqb_spec a b)
         end; simpl; lia.
Qed.

Lemma latin1_lower_stable (s : str) (c : char) :
  c ∈ latin1_lower s → latin1_lower [c] = [c].
Proof.
  intros (d & -> & _)%list_elem_of_fmap. unfold latin1_lower. simpl.
  by rewrite latin1_lower_char_idem.
Qed.

Lemma latin1_lower_fixed (s : str) :
  Forall (λ c, latin1_lower [c] = [c]) s → latin1_lower s = s.
Proof.
  unfold latin1_lower. induction 1 as [|c s Hc _ IH]; [done|].
  cbn [fmap list_fmap] in *. by rewrite IH; injection Hc as ->.
Qed.

Lemma latin1_lower_plain :
  Forall (λ c, latin1_lower [c] = [c]) (SPACE :: folded_letters).
Proof. by repeat constructor. Qed.

(** The theorem on a name of the configuration, with the Latin-1 tables. *)
Lemma normalize_name_idempotent_witness :
  normalize_latin1 (normalize_latin1 (lit "  J. Strand-Larsen  "))
  = normalize_latin1 (lit "  J. Strand-Larsen  ").
Proof.
  exact (normalize_name_idempotent latin1_lower latin1_isalnum
           latin1_lower_stable latin1_lower_fixed latin1_lower_plain
           (lit "  J. Strand-Larsen  ")).
Defined.

Local Close Scope N_scope.

(** ** The matcher *)

Section MatcherProps.
Variable lower : str → str.
Variable isalnum : char → bool.

Local Abbreviation normalize := (normalize_name lower isalnum).

Lemma variation_matches_exact (c : str) (variations : list str) :
  c ∈ normalize <$> variations →
  variation_matches lower isalnum c variations = true.
Proof.
  intros (v & -> & Hv)%list_elem_of_fmap. apply existsb_exists.
  exists v. split; [by apply list_elem_of_In|].
  cbv zeta. by rewrite contains_refl.
Qed.

Lemma exact_match_accepted (t : target) (r : row) :
  exact_match lower isalnum t r = true → accepted lower isalnum t r = true.
Proof.
  unfold exact_match, accepted, name_matches, club_matches.
  intros [Hn%bool_decide_eq_true Hc%bool_decide_eq_true]%andb_true_iff.
  by rewrite !variation_matches_exact.
Qed.

(** The scan returns the first accepted row. *)
Lemma find_player_first (t : target) (df : list row) (i : nat) (r : row) :
  df !! i = Some r → accepted lower isalnum t r = true →
  ∃ j r', j ≤ i ∧ df !! j = Some r' ∧ accepted lower isalnum t r' = true
          ∧ (∀ k r'', k < j → df !! k = Some r'' → accepted lower isalnum t r'' = false)
          ∧ find_player lower isalnum t df = Some r'.
Proof.
  revert i. induction df as [|r0 df IH]; intros i Hi Hr; [done|].
  cbn [find_player]. fold (accepted lower isalnum t r0).
  destruct (accepted lower isalnum t r0) eqn:E0.
  - exists 0, r0. split_and!; [lia|done|done|intros; lia|done].
  - destruct i as [|i]; [simpl in Hi; congruence|].
    destruct (IH i Hi Hr) as (j & r' & Hj & Hl & Ha & Hfirst & Hfind).
    exists (S j), r'. split_and!; [lia|done|done| |done].
    intros [|k] r'' Hk Hl'; [simpl in Hl'; congruence|].
    apply (Hfirst k); [lia|done].
Qed.

Lemma find_player_selected (t : target) (df : list row) (targets : list target) (r : row) :
  df_empty df = false →
  find_player lower isalnum t df = Some r → t ∈ targets →
  r ∈ find_players_with_debug lower isalnum df targets.
Proof.
  intros Hcols Hf Ht. unfold find_players_with_debug. rewrite Hcols.
  apply list_elem_of_omap. eauto.
Qed.

Lemma find_player_alone (t : target) (df : list row) (r : row) :
  df_empty df = false →
  find_player lower isalnum t df = Some r →
  find_players_with_debug lower isalnum df [t] = [r].
Proof.
  intros Hcols Hf. unfold find_players_with_debug. rewrite Hcols.
  cbn [omap list_omap]. by rewrite Hf.
Qed.

(** C1, as the code has it: a row whose normalised name and club are each
    equal to one of the target's normalised spellings is accepted, so the
    scan for the target selects a row: the first accepted row of the table,
    before which no row is accepted, and which is this row or one before
    it. When a row before this one is accepted, the selected row comes
    before this one: the scan has stopped there and does not reach the
    exact match. When no row before it is accepted, this row is selected.
    In a table that has columns the matcher returns the selected row for
    the target, and that row alone when the target is the only one. *)
Theorem exact_match_selected_when_first (t : target) (df : list row) (i : nat) (r : row) :
  df !! i = Some r → exact_match lower isalnum t r = true →
  accepted lower isalnum t r = true
  ∧ (∃ j r', j ≤ i ∧ df !! j = Some r' ∧ accepted lower isalnum t r' = true
             ∧ (∀ k r'', k < j → df !! k = Some r'' →
                  accepted lower isalnum t r'' = false)
             ∧ find_player lower isalnum t df = Some r'
             ∧ ((∃ k r'', k < i ∧ df !! k = Some r''
                          ∧ accepted lower isalnum t r'' = true) →
                j < i)
             ∧ (df_empty df = false →
                find_players_with_debug lower isalnum df [t] = [r']
                ∧ ∀ targets, t ∈ targets →
                    r' ∈ find_players_with_debug lower isalnum df targets))
  ∧ ((∀ k r', k < i → df !! k = Some r' → accepted lower isalnum t r' = false) →
     find_player lower isalnum t df = Some r
     ∧ (df_empty df = false →
        find_players_with_debug lower isalnum df [t] = [r]
        ∧ ∀ targets, t ∈ targets →
            r ∈ find_players_with_debug lower isalnum df targets)).
Proof.
  intros Hi He%exact_match_accepted.
  destruct (find_player_first t df i r Hi He) as (j & r' & Hj & Hl & Ha & Hfirst & Hfind).
  split_and!; [done| |].
  - exists j, r'. split_and!; try done.
    + intros (k & r'' & Hk & Hlk & Hak).
      destruct (decide (j < i)) as [|Hge]; [done|].
      assert (j = i) as -> by lia. by rewrite (Hfirst k r'') in Hak.
    + intros Hcols. split; [by apply find_player_alone|].
      intros. by eapply find_player_selected.
  - intros Hearlier. destruct (decide (j = i)) as [->|Hne].
    + assert (r' = r) as -> by congruence.
      split; [done|]. intros Hcols. split; [by apply find_player_alone|].
      intros. by eapply find_player_selected.
    + rewrite (Hearlier j r') in Ha; [done|lia|done].
Qed.

Lemma normalize_blank : normalize [] = [].
Proof. done. Qed.

Lemma variation_matches_blank (v : str) (variations : list str) :
  variation_matches lower isalnum [] (v :: variations) = true.
Proof. simpl. by rewrite contains_empty, orb_true_r. Qed.

(** C6: a row whose name (club) is empty or missing normalises to the empty
    string, which passes the containment test against every spelling of the
    target, so the name (club) matches; a row with both empty is accepted
    for every target, and selected when it comes first. *)
Theorem blank_field_matches (t : target) (r : row) :
  (blank r (lit "Player") →
     norm_player lower isalnum r = []
     ∧ (∀ v, v ∈ primary_name t :: alt_names t →
          contains (normalize v) (norm_player lower isalnum r)
          || contains (norm_player lower isalnum r) (normalize v) = true)
     ∧ name_matches lower isalnum t r = true)
  ∧ (blank r (lit "Squad") →
     norm_team lower isalnum r = []
     ∧ (∀ v, v ∈ club t :: alt_clubs t →
          contains (normalize v) (norm_team lower isalnum r)
          || contains (norm_team lower isalnum r) (normalize v) = true)
     ∧ club_matches lower isalnum t r = true)
  ∧ (blank r (lit "Player") → blank r (lit "Squad") →
     accepted lower isalnum t r = true
     ∧ ∀ df, find_player lower isalnum t (r :: df) = Some r).
Proof.
  unfold blank, accepted, name_matches, club_matches, norm_player, norm_team.
  split_and!.
  - intros ->. cbn [py_str]. rewrite normalize_blank. split_and!; [done| |].
    + intros v _. by rewrite contains_empty, orb_true_r.
    + apply variation_matches_blank.
  - intros ->. cbn [py_str]. rewrite normalize_blank. split_and!; [done| |].
    + intros v _. by rewrite contains_empty, orb_true_r.
    + apply variation_matches_blank.
  - intros Hp Hs.
    assert (name_matches lower isalnum t r && club_matches lower isalnum t r = true) as H.
    { unfold name_matches, club_matches, norm_player, norm_team. rewrite Hp, Hs.
      cbn [py_str]. by rewrite normalize_blank, !variation_matches_blank. }
    split; [done|]. intros df. cbn [find_player]. by rewrite H.
Qed.

End MatcherProps.

Lemma exact_match_selected_when_first_witness :
  find_player latin1_lower latin1_isalnum zubimendi
    [player_row "Mikel Oyarzabal" "Real Sociedad"; player_row "Zubimendi" "Sociedad"]
  = Some (player_row "Zubimendi" "Sociedad")
  ∧ find_players_with_debug latin1_lower latin1_isalnum
      [player_row "Mikel Oyarzabal" "Real Sociedad"; player_row "Zubimendi" "Sociedad"]
      [zubimendi]
    = [player_row "Zubimendi" "Sociedad"].
Proof.
  destruct (exact_match_selected_when_first latin1_lower latin1_isalnum zubimendi
              [player_row "Mikel Oyarzabal" "Real Sociedad";
               player_row "Zubimendi" "Sociedad"]
              1 (player_row "Zubimendi" "Sociedad")) as (_ & _ & Hsel).
  - reflexivity.
  - vm_compute. reflexivity.
  - destruct Hsel as [Hfind Hreturned].
    + intros [|[|k]] r' Hk Hr'; [|lia|lia].
      injection Hr' as <-. vm_compute. reflexivity.
    + split; [exact Hfind|]. apply Hreturned. reflexivity.
Defined.

(** C1 as stated fails: the second row matches the target exactly, but the
    first row matches by containment and the scan stops there. *)
Lemma exact_match_not_selected :
  let first := player_row "Ander Zubimendi" "Real Sociedad B" in
  let second := player_row "Martin Zubimendi" "Real Sociedad" in
  exact_match latin1_lower latin1_isalnum zubimendi second = true
  ∧ find_players_with_debug latin1_lower latin1_isalnum [first; second] [zubimendi]
    = [first]
  ∧ first ≠ second.
Proof. split_and!; [by vm_compute|by vm_compute|discriminate]. Qed.

Lemma blank_field_matches_witness :
  name_matches latin1_lower latin1_isalnum zubimendi
    [(lit "Player", CellStr []); (lit "Age", CellNum (lit "25"))] = true
  ∧ club_matches latin1_lower latin1_isalnum zubimendi
      [(lit "Player", CellStr []); (lit "Age", CellNum (lit "25"))] = true
  ∧ accepted latin1_lower latin1_isalnum zubimendi
      [(lit "Player", CellStr []); (lit "Age", CellNum (lit "25"))] = true.
Proof.
  destruct (blank_field_matches latin1_lower latin1_isalnum zubimendi
              [(lit "Player", CellStr []); (lit "Age", CellNum (lit "25"))])
    as (Hname & Hclub & Hboth).
  split_and!.
  - apply Hname. reflexivity.
  - apply Hclub. reflexivity.
  - apply Hboth; reflexivity.
Defined.

(** ** The retry loop *)

Lemma acquisitions_app (evs1 evs2 : list event) :
  acquisitions (evs1 ++ evs2) = acquisitions evs1 + acquisitions evs2.
Proof. unfold acquisitions. by rewrite List.filter_app, length_app. Qed.

Lemma sleeps_app (seconds : nat) (evs1 evs2 : list event) :
  sleeps seconds (evs1 ++ evs2) = sleeps seconds evs1 + sleeps seconds evs2.
Proof. unfold sleeps. by rewrite List.filter_app, length_app. Qed.

Section RetryProps.

Variable World : Type.
Variable acquire : source → World → outcome (list row) * World.
Variable sleep : nat → World → World.
Variable max_attempts : nat.
Variable delay : nat.

Local Abbreviation retry_loop' := (retry_loop World acquire sleep max_attempts delay).
Local Abbreviation fetch := (fetch_with_retry World acquire sleep max_attempts delay).

Lemma sleeps_failed_attempt (src : source) (ordinal : nat) (e : exn) (evs : list event) :
  sleeps delay (Acquire src :: Attempt_failed ordinal e :: Sleep delay :: evs)
  = S (sleeps delay evs).
Proof. unfold sleeps. simpl. by rewrite bool_decide_eq_true_2. Qed.

Lemma retry_loop_all_fail (src : source) (n a : nat) (st : scraper World) :
  (∀ w, fails (acquire src w).1 = true) →
  a + S n = max_attempts →
  ∃ st' evs,
    retry_loop' src (seq a (S n)) st = Return st'
    ∧ dataframes st' = <[stat_type src := []]> (dataframes st)
    ∧ trace st' = trace st ++ evs
    ∧ acquisitions evs = S n
    ∧ sleeps delay evs = n.
Proof.
  intros Hfail. revert a st. induction n as [|n IH]; intros a st Ha.
  - cbn [seq retry_loop]. specialize (Hfail (world st)).
    destruct (acquire src (world st)) as [[df|e] w]; [done|]. simpl in Hfail.
    rewrite Hfail. rewrite bool_decide_eq_true_2 by lia.
    eexists _, [Acquire src; Attempt_failed (a + 1) e].
    split_and!; [done|done| |done|done].
    cbn. by rewrite <- app_assoc.
  - change (seq a (S (S n))) with (a :: seq (S a) (S n)). cbn [retry_loop].
    pose proof (Hfail (world st)) as Hw.
    destruct (acquire src (world st)) as [[df|e] w]; [done|]. simpl in Hw.
    rewrite Hw. rewrite bool_decide_eq_false_2 by lia.
    edestruct (IH (S a)) as (st' & evs & -> & Hd & Ht & Hacq & Hsl); [lia|].
    eexists _, ([Acquire src; Attempt_failed (a + 1) e; Sleep delay] ++ evs).
    split_and!; [done|by rewrite Hd| | |].
    + rewrite Ht. cbn. by rewrite <- !app_assoc.
    + rewrite acquisitions_app, Hacq. done.
    + cbn [app]. by rewrite sleeps_failed_attempt, Hsl.
Qed.

(** What a retry loop that returns has done, for any site: it has asked the
    site first, and it has stored under the key of its source a table that
    the site returned to it, or the empty table. *)
Lemma retry_loop_stores (src : source) (n a : nat) (st st' : scraper World) :
  retry_loop' src (seq a (S n)) st = Return st' →
  a + S n = max_attempts →
  ∃ df evs,
    dataframes st' = <[stat_type src := df]> (dataframes st)
    ∧ trace st' = trace st ++ Acquire src :: evs
    ∧ (df = [] ∨ ∃ w, (acquire src w).1 = Return df).
Proof.
  revert a st. induction n as [|n IH]; intros a st Hr Ha.
  - cbn [seq retry_loop] in Hr.
    destruct (acquire src (world st)) as [[df|e] w] eqn:Eacq.
    + injection Hr as <-. exists df, []. split_and!; [done|done|].
      right. exists (world st). by rewrite Eacq.
    + destruct (is_Exception e); [|done].
      rewrite bool_decide_eq_true_2 in Hr by lia. injection Hr as <-.
      exists [], [Attempt_failed (a + 1) e].
      split_and!; [done| |by left]. cbn. by rewrite <- app_assoc.
  - change (seq a (S (S n))) with (a :: seq (S a) (S n)) in Hr. cbn [retry_loop] in Hr.
    destruct (acquire src (world st)) as [[df|e] w] eqn:Eacq.
    + injection Hr as <-. exists df, []. split_and!; [done|done|].
      right. exists (world st). by rewrite Eacq.
    + destruct (is_Exception e); [|done].
      rewrite bool_decide_eq_false_2 in Hr by lia.
      apply IH in Hr as (df & evs & Hd & Ht & Hdf); [|lia].
      exists df, ([Attempt_failed (a + 1) e; Sleep delay] ++ Acquire src :: evs).
      split_and!; [by rewrite Hd| |done].
      rewrite Ht. cbn. by rewrite <- !app_assoc.
Qed.

Lemma fetch_stores (src : source) (st st' : scraper World) :
  0 < max_attempts →
  fetch src st = Return st' →
  ∃ df evs,
    dataframes st' = <[stat_type src := df]> (dataframes st)
    ∧ trace st' = trace st ++ Acquire src :: evs
    ∧ (df = [] ∨ ∃ w, (acquire src w).1 = Return df).
Proof.
  unfold fetch_with_retry. intros Hmax Hr.
  assert (∃ n, max_attempts = S n) as [n Hn] by (exists (max_attempts - 1); lia).
  apply (retry_loop_stores src n 0); [|lia].
  by rewrite <- Hn.
Qed.

(** A retry loop returns when the site raises nothing but [Exception]s. *)
Lemma retry_loop_caught (src : source) (attempts : list nat) (st : scraper World) :
  (∀ w e, (acquire src w).1 = Raise e → is_Exception e = true) →
  ∃ st', retry_loop' src attempts st = Return st'.
Proof.
  intros Hcaught. revert st. induction attempts as [|a attempts IH]; intros st.
  - by eexists.
  - cbn [retry_loop]. pose proof (Hcaught (world st)) as Hw.
    destruct (acquire src (world st)) as [[df|e] w]; [by eexists|].
    rewrite (Hw e) by done. case_bool_decide; apply IH.
Qed.

(** The loop over the sources goes through all of them when the site raises
    nothing but [Exception]s: each is asked for and gets an entry, which is
    a table the site returned for its key or the empty table, and no other
    entry is touched. *)
Lemma scrape_goes_through (sources : list source) (st : scraper World) :
  0 < max_attempts →
  (∀ src, src ∈ sources → ∀ w e, (acquire src w).1 = Raise e → is_Exception e = true) →
  ∃ st' evs,
    scrape World acquire sleep max_attempts delay sources st = Return st'
    ∧ trace st' = trace st ++ evs
    ∧ (∀ src, src ∈ sources → Acquire src ∈ evs)
    ∧ (∀ src, src ∈ sources →
         ∃ df, dataframes st' !! stat_type src = Some df
               ∧ (df = []
                  ∨ ∃ src' w, src' ∈ sources ∧ stat_type src' = stat_type src
                              ∧ (acquire src' w).1 = Return df))
    ∧ (∀ key, key ∉ stat_type <$> sources →
         dataframes st' !! key = dataframes st !! key).
Proof.
  intros Hmax. revert st. induction sources as [|src rest IH]; intros st Hcaught.
  - exists st, []. split_and!; [done|by rewrite app_nil_r| | |done];
      by intros src ?%elem_of_nil.
  - cbn [scrape].
    destruct (retry_loop_caught src (seq 0 max_attempts) st) as [st1 Hfetch].
    { apply Hcaught. left. }
    fold (fetch src st) in Hfetch. rewrite Hfetch.
    destruct (fetch_stores src st st1 Hmax Hfetch) as (df & evs1 & Hd & Ht & Hdf).
    destruct (IH (time_sleep World sleep 2 st1)) as (st' & evs & Hr & Ht' & Hacq & Hall & Hother).
    { intros src' Hin. apply Hcaught. by right. }
    cbn [time_sleep emit dataframes trace] in Ht', Hother.
    exists st', (Acquire src :: evs1 ++ Sleep 2 :: evs).
    split_and!; [done| | | |].
    + rewrite Ht', Ht. by rewrite <- !app_assoc.
    + intros src' [->|Hin]%elem_of_cons; [left|].
      right. apply elem_of_app. right. right. by apply Hacq.
    + assert (∀ src', src' ∈ rest →
                ∃ df', dataframes st' !! stat_type src' = Some df'
                       ∧ (df' = []
                          ∨ ∃ src'' w, src'' ∈ src :: rest
                                       ∧ stat_type src'' = stat_type src'
                                       ∧ (acquire src'' w).1 = Return df')) as Hrest.
      { intros src' Hin. destruct (Hall src' Hin) as (df' & Hlook & Hdf').
        exists df'. split; [done|].
        destruct Hdf' as [->|(src'' & w & Hin'' & Hkey & Hret)]; [by left|].
        right. exists src'', w. split_and!; [by right|done|done]. }
      intros src' [->|Hin]%elem_of_cons; [|by apply Hrest].
      destruct (decide (stat_type src ∈ stat_type <$> rest)) as [Hdup|Hfresh].
      * apply list_elem_of_fmap in Hdup as (src' & Hkey & Hin).
        rewrite Hkey. by apply Hrest.
      * exists df. rewrite (Hother _ Hfresh), Hd, lookup_insert_eq. split; [done|].
        destruct Hdf as [->|[w Hret]]; [by left|].
        right. exists src, w. split_and!; [left|done|done].
    + intros key Hkey. rewrite fmap_cons, not_elem_of_cons in Hkey.
      destruct Hkey as [Hne Hkey]. by rewrite (Hother _ Hkey), Hd, lookup_insert_ne.
Qed.

(** C2: when every call of the acquisition raises an [Exception] and at
    least one attempt is allowed, the retry loop calls it exactly
    [max_attempts] times and returns normally with the empty dataframe
    stored for the source. The loop over the sources then goes on with the
    rest: when the site raises nothing but [Exception]s for them, it pauses,
    asks for every remaining source, returns with an entry for each of
    them, and the entry of the failed source is still the empty dataframe
    unless a later source has the same key. *)
Theorem always_failing_source_is_empty (src : source) (rest : list source)
    (st : scraper World) :
  0 < max_attempts →
  (∀ w, fails (acquire src w).1 = true) →
  ∃ st' evs,
    fetch src st = Return st'
    ∧ dataframes st' = <[stat_type src := []]> (dataframes st)
    ∧ trace st' = trace st ++ evs
    ∧ acquisitions evs = max_attempts
    ∧ scrape World acquire sleep max_attempts delay (src :: rest) st
      = scrape World acquire sleep max_attempts delay rest
          (time_sleep World sleep 2 st')
    ∧ ((∀ src', src' ∈ rest →
          ∀ w e, (acquire src' w).1 = Raise e → is_Exception e = true) →
       ∃ st'' evs',
         scrape World acquire sleep max_attempts delay (src :: rest) st = Return st''
         ∧ trace st'' = trace st' ++ Sleep 2 :: evs'
         ∧ (∀ src', src' ∈ rest →
              Acquire src' ∈ evs' ∧ is_Some (dataframes st'' !! stat_type src'))
         ∧ (stat_type src ∉ stat_type <$> rest →
            dataframes st'' !! stat_type src = Some [])).
Proof.
  intros Hmax Hfail. unfold fetch_with_retry.
  destruct max_attempts as [|n] eqn:E; [lia|].
  destruct (retry_loop_all_fail src n 0 st Hfail) as (st' & evs & Hr & Hd & Ht & Ha & _);
    [lia|].
  rewrite E in Hr. exists st', evs. split_and!; try done.
  - cbn [scrape]. unfold fetch_with_retry. by rewrite Hr.
  - intros Hcaught. cbn [scrape]. unfold fetch_with_retry. rewrite Hr.
    rewrite <- E in *.
    destruct (scrape_goes_through rest (time_sleep World sleep 2 st'))
      as (st'' & evs' & Hs & Ht'' & Hacq & Hall & Hother); [lia|done|].
    cbn [time_sleep emit dataframes trace] in Ht'', Hother.
    exists st'', evs'. split_and!; [done|by rewrite Ht'', <- app_assoc| |].
    + intros src' Hin. split; [by apply Hacq|].
      destruct (Hall src' Hin) as (df & -> & _). by eexists.
    + intros Hfresh. by rewrite (Hother _ Hfresh), Hd, lookup_insert_eq.
Qed.

Lemma retry_loop_last_succeeds (src : source) (df : list row) (n a : nat)
    (st : scraper World) :
  (∀ i, i < n →
     fails (acquire src (world_after World acquire sleep delay src i (world st))).1 = true) →
  (acquire src (world_after World acquire sleep delay src n (world st))).1 = Return df →
  a + S n = max_attempts →
  ∃ st' evs,
    retry_loop' src (seq a (S n)) st = Return st'
    ∧ dataframes st' = <[stat_type src := df]> (dataframes st)
    ∧ trace st' = trace st ++ evs
    ∧ acquisitions evs = S n
    ∧ sleeps delay evs = n.
Proof.
  revert a st. induction n as [|n IH]; intros a st Hfail Hok Ha.
  - cbn [seq retry_loop]. simpl in Hok.
    destruct (acquire src (world st)) as [res w]. simpl in Hok. subst res.
    eexists _, [Acquire src]. by split_and!.
  - change (seq a (S (S n))) with (a :: seq (S a) (S n)). cbn [retry_loop].
    pose proof (Hfail 0 ltac:(lia)) as Hw. simpl in Hw, Hok.
    destruct (acquire src (world st)) as [[df'|e] w] eqn:Eacq; [done|].
    simpl in Hw. rewrite Hw. rewrite bool_decide_eq_false_2 by lia.
    edestruct (IH (S a) (time_sleep World sleep delay
                           (emit World (Attempt_failed (a + 1) e)
                              (emit World (Acquire src)
                                 (Scraper World w (dataframes st) (trace st))))))
      as (st' & evs & -> & Hd & Ht & Hacq & Hsl); [| |lia|].
    + intros i Hi. specialize (Hfail (S i) ltac:(lia)).
      simpl in Hfail. by rewrite Eacq in Hfail.
    + done.
    + eexists _, ([Acquire src; Attempt_failed (a + 1) e; Sleep delay] ++ evs).
      split_and!; [done|by rewrite Hd| | |].
      * rewrite Ht. cbn. by rewrite <- !app_assoc.
      * rewrite acquisitions_app, Hacq. done.
      * cbn [app]. by rewrite sleeps_failed_attempt, Hsl.
Qed.

(** C3: when the acquisition fails on the first [max_attempts - 1] calls
    and succeeds on the next, the retry loop stores the value it returned,
    having called it [max_attempts] times and slept for the delay exactly
    [max_attempts - 1] times. *)
Theorem success_on_last_attempt (src : source) (df : list row) (st : scraper World) :
  0 < max_attempts →
  (∀ i, i < max_attempts - 1 →
     fails (acquire src (world_after World acquire sleep delay src i (world st))).1 = true) →
  (acquire src (world_after World acquire sleep delay src (max_attempts - 1) (world st))).1
  = Return df →
  ∃ st' evs,
    fetch src st = Return st'
    ∧ dataframes st' = <[stat_type src := df]> (dataframes st)
    ∧ trace st' = trace st ++ evs
    ∧ acquisitions evs = max_attempts
    ∧ sleeps delay evs = max_attempts - 1.
Proof.
  intros Hmax Hfail Hok. unfold fetch_with_retry.
  destruct max_attempts as [|n] eqn:E; [lia|].
  replace (S n - 1) with n in * by lia.
  destruct (retry_loop_last_succeeds src df n 0 st Hfail Hok) as (st' & evs & Hr & H);
    [lia|].
  rewrite E in Hr. by exists st', evs.
Qed.

End RetryProps.

Lemma always_failing_source_is_empty_witness :
  ∃ st' evs,
    fetch_with_retry nat site_down no_wait MAX_RETRIES RETRY_DELAY standard
      (Scraper nat 0 ∅ []) = Return st'
    ∧ dataframes st' = <["standard" := []]> ∅
    ∧ trace st' = [] ++ evs
    ∧ acquisitions evs = MAX_RETRIES
    ∧ scrape nat site_down no_wait MAX_RETRIES RETRY_DELAY [standard; shooting]
        (Scraper nat 0 ∅ [])
      = scrape nat site_down no_wait MAX_RETRIES RETRY_DELAY [shooting]
          (time_sleep nat no_wait 2 st')
    ∧ ∃ st'' evs',
        scrape nat site_down no_wait MAX_RETRIES RETRY_DELAY [standard; shooting]
          (Scraper nat 0 ∅ []) = Return st''
        ∧ trace st'' = trace st' ++ Sleep 2 :: evs'
        ∧ (∀ src', src' ∈ [shooting] →
             Acquire src' ∈ evs' ∧ is_Some (dataframes st'' !! stat_type src'))
        ∧ dataframes st'' !! "standard" = Some [].
Proof.
  destruct (always_failing_source_is_empty nat site_down no_wait MAX_RETRIES RETRY_DELAY
              standard [shooting] (Scraper nat 0 ∅ []))
    as (st' & evs & Hfetch & Hd & Ht & Hacq & Hstep & Hrest).
  - unfold MAX_RETRIES. lia.
  - intros w. reflexivity.
  - exists st', evs. split_and!; try done.
    destruct Hrest as (st'' & evs' & Hs & Ht' & Hall & Hempty).
    + intros src' _ w e [= <-]. reflexivity.
    + exists st'', evs'. split_and!; try done. apply Hempty.
      cbn. intros Hin%list_elem_of_singleton. discriminate Hin.
Defined.

Lemma success_on_last_attempt_witness :
  ∃ st' evs,
    fetch_with_retry nat site_slow no_wait MAX_RETRIES RETRY_DELAY standard
      (Scraper nat 0 ∅ []) = Return st'
    ∧ dataframes st'
      = <["standard" := [[(lit "Player", CellStr (lit "Bukayo Saka"));
                          (lit "Squad", CellStr (lit "Arsenal"))]]]> ∅
    ∧ trace st' = [] ++ evs
    ∧ acquisitions evs = MAX_RETRIES
    ∧ sleeps RETRY_DELAY evs = MAX_RETRIES - 1.
Proof.
  apply (success_on_last_attempt nat site_slow no_wait MAX_RETRIES RETRY_DELAY
           standard _ (Scraper nat 0 ∅ [])).
  - unfold MAX_RETRIES. lia.
  - intros [|[|i]] Hi; [reflexivity|reflexivity|unfold MAX_RETRIES in Hi; lia].
  - reflexivity.
Defined.

(** ** Validation *)

Lemma validate_entries_well_formed (i : nat) (pre rest : list json) :
  Forall (λ entry, well_formed entry = true) pre →
  validate_entries i (pre ++ rest) = validate_entries (i + length pre) rest.
Proof.
  intros Hpre. revert i. induction Hpre as [|entry pre Hwf _ IH]; intros i.
  - simpl. by rewrite Nat.add_0_r.
  - cbn [app validate_entries length]. unfold well_formed in Hwf.
    repeat case_match; try done.
    rewrite IH. f_equal. lia.
Qed.

Lemma validate_entries_first_violation (i : nat) (data : list json) (b : bool)
    (out : list message) :
  validate_entries i data = (Return b, out) →
  if b then Forall (λ entry, well_formed entry = true) data ∧ out = []
  else ∃ pre entry rest,
         data = pre ++ entry :: rest
         ∧ Forall (λ entry, well_formed entry = true) pre
         ∧ well_formed entry = false
         ∧ validate_entries (i + length pre) [entry] = (Return false, out)
         ∧ ∃ m, out = [m].
Proof.
  revert i. induction data as [|entry data IH]; intros i.
  - intros [= <- <-]. done.
  - destruct (well_formed entry) eqn:Hwf.
    + change (entry :: data) with ([entry] ++ data).
      rewrite (validate_entries_well_formed i [entry] data) by (by constructor).
      intros H%IH. destruct b.
      * destruct H as [H ->]. split; [by constructor|done].
      * destruct H as (pre & e & rest & -> & Hpre & He & Hv & Hm).
        exists (entry :: pre), e, rest. split_and!; [done|by constructor|done| |done].
        rewrite <- Hv. f_equal. simpl. lia.
    + intros Hv. assert (b = false ∧ validate_entries (i + 0) [entry] = (Return false, out)
                         ∧ ∃ m, out = [m]) as (-> & Hv' & Hm).
      { rewrite Nat.add_0_r. cbn [validate_entries] in *. unfold well_formed in Hwf.
        repeat case_match; simplify_eq/=; eauto. }
      exists [], entry, data. by split_and!.
Qed.

Lemma validate_stats_file_array (fs : gmap string file) (path : string) (data : list json) :
  load_json fs path = Return (JArr data) →
  validate_stats_file fs path
  = match validate_entries 0 data with
    | (Return true, out) => (Return true, out ++ [File_format_is_valid (length data)])
    | r => r
    end.
Proof.
  intros H. unfold validate_stats_file. rewrite H.
  destruct (validate_entries 0 data) as [[[]|e] out]; simpl; by rewrite ?app_nil_r.
Qed.

Lemma first_missing_assists (fields : dict) :
  first_missing fields required_fields = None →
  dict_get fields (lit "assists") ≠ None.
Proof. cbn [first_missing required_fields]. by repeat case_match. Qed.

Lemma main_validate (fs : gmap string file) (now : datetime) (path : string) :
  main (Validate (Some path)) fs now
  = (match (validate_stats_file fs path).1 with
     | Return _ => Return fs
     | Raise e => Raise e
     end, (validate_stats_file fs path).2).
Proof.
  cbn [main]. destruct (validate_stats_file fs path) as [[b|e] out]; simpl;
    by rewrite ?app_nil_r.
Qed.

Lemma main_import_invalid (fs : gmap string file) (now : datetime) (path : string) :
  (validate_stats_file fs path).1 ≠ Return true →
  main (Import (Some path)) fs now
  = (match (validate_stats_file fs path).1 with
     | Return _ => Return fs
     | Raise e => Raise e
     end, (validate_stats_file fs path).2).
Proof.
  cbn [main]. destruct (validate_stats_file fs path) as [[[]|e] out]; simpl;
    [done|by rewrite app_nil_r..|done].
Qed.

(** C8, as the code has it: an entry without [assists] keeps validation from
    succeeding, so the import command merges nothing and leaves the files
    alone; the diagnostic is for the first entry at fault, and it names this
    entry and [assists] when the entries before it are well formed and the
    entry has the three fields checked before [assists]. *)
Theorem missing_assists_blocks_import (fs : gmap string file) (now : datetime)
    (path : string) (data : list json) (i : nat) (fields : dict) :
  load_json fs path = Return (JArr data) →
  data !! i = Some (JObj fields) →
  dict_get fields (lit "assists") = None →
  (validate_stats_file fs path).1 ≠ Return true
  ∧ main (Import (Some path)) fs now
    = (match (validate_stats_file fs path).1 with
       | Return _ => Return fs
       | Raise e => Raise e
       end, (validate_stats_file fs path).2)
  ∧ (Forall (λ entry, well_formed entry = true) (take i data) →
     is_Some (dict_get fields (lit "name")) →
     is_Some (dict_get fields (lit "minutes")) →
     is_Some (dict_get fields (lit "goals")) →
     validate_stats_file fs path
     = (Return false, [Entry_missing_required_field (i + 1) (lit "assists")])).
Proof.
  intros Hload Hi Hassists.
  assert ((validate_stats_file fs path).1 ≠ Return true) as Hfail.
  { rewrite (validate_stats_file_array _ _ _ Hload).
    destruct (validate_entries 0 data) as [[[]|e] out] eqn:E; [|done..].
    apply validate_entries_first_violation in E as [Hwf _].
    eapply Forall_lookup_1 in Hwf; [|done]. unfold well_formed in Hwf.
    destruct (first_missing fields required_fields) eqn:Hm; [done|].
    by apply first_missing_assists in Hm. }
  split_and!; [done|by apply main_import_invalid|].
  intros Hpre [vn Hn] [vm Hm] [vg Hg].
  rewrite (validate_stats_file_array _ _ _ Hload).
  rewrite <- (take_drop_middle _ _ _ Hi).
  rewrite validate_entries_well_formed by done.
  rewrite length_take_le by (apply lookup_lt_Some in Hi; lia).
  cbn [validate_entries first_missing required_fields].
  by rewrite Hn, Hm, Hg, Hassists.
Qed.

(** C10: an entry with the four required fields whose name is not a string
    makes validation raise [AttributeError]; nothing is printed and no
    value is returned, and the commands raise with it. *)
Theorem validate_raises_on_non_string_name (fs : gmap string file) (now : datetime)
    (path : string) (pre rest : list json) (fields : dict) (name : json) :
  load_json fs path = Return (JArr (pre ++ JObj fields :: rest)) →
  Forall (λ entry, well_formed entry = true) pre →
  first_missing fields required_fields = None →
  dict_get fields (lit "name") = Some name →
  (∀ s, name ≠ JStr s) →
  validate_stats_file fs path = (Raise AttributeError, [])
  ∧ main (Validate (Some path)) fs now = (Raise AttributeError, [])
  ∧ main (Import (Some path)) fs now = (Raise AttributeError, []).
Proof.
  intros Hload Hpre Hmissing Hname Hstr.
  assert (validate_stats_file fs path = (Raise AttributeError, [])) as Hv.
  { rewrite (validate_stats_file_array _ _ _ Hload).
    rewrite validate_entries_well_formed by done.
    cbn [validate_entries]. rewrite Hmissing, Hname.
    destruct name; try done. by destruct (Hstr s). }
  split_and!; [done| |].
  - by rewrite main_validate, Hv.
  - rewrite main_import_invalid; by rewrite Hv.
Qed.

(** C9, as the code has it: a run of [validate <file>] that ends normally
    prints exactly one line: the confirmation with the number of entries
    when every entry is well formed, and otherwise the diagnostic of the
    first thing at fault. *)
Theorem validate_prints_one_line (fs : gmap string file) (now : datetime)
    (path : string) (fs' : gmap string file) (out : list message) :
  main (Validate (Some path)) fs now = (Return fs', out) →
  fs' = fs
  ∧ ∃ m, out = [m]
    ∧ ((∃ data, load_json fs path = Return (JArr data)
                ∧ Forall (λ entry, well_formed entry = true) data
                ∧ m = File_format_is_valid (length data))
       ∨ (∃ e, load_json fs path = Raise e ∧ m = Error_reading_file e)
       ∨ (∃ j, load_json fs path = Return j ∧ (∀ data, j ≠ JArr data)
               ∧ m = File_must_contain_a_list)
       ∨ (∃ pre entry rest,
            load_json fs path = Return (JArr (pre ++ entry :: rest))
            ∧ Forall (λ entry, well_formed entry = true) pre
            ∧ well_formed entry = false
            ∧ validate_entries (length pre) [entry] = (Return false, [m]))).
Proof.
  rewrite main_validate.
  destruct (validate_stats_file fs path) as [[b|e] out'] eqn:Hv; [|done].
  intros [= <- <-]. split; [done|]. simpl.
  unfold validate_stats_file in Hv.
  destruct (load_json fs path) as [j|e] eqn:Hload.
  - destruct j as [| | | |data|];
      try (injection Hv as <- <-; eexists; split; [done|];
           right; right; left; eexists; by split_and!).
    destruct (validate_entries 0 data) as [[ok|e] out0] eqn:E; [|done].
    pose proof (validate_entries_first_violation _ _ _ _ E) as H. destruct ok.
    + destruct H as [Hwf ->]. injection Hv as <- <-.
      eexists. split; [done|]. left. eauto.
    + destruct H as (pre & entry & rest & -> & Hpre & Hentry & Hone & m & ->).
      simpl in Hv. injection Hv as <- <-. exists m. split; [done|].
      do 3 right. exists pre, entry, rest. by split_and!.
  - destruct (is_Exception e); [|done]. injection Hv as <- <-.
    eexists. split; [done|]. right; left. eauto.
Qed.

(** ** Merge and update *)

Lemma bind_Return {A B : Type} (m : M A) (f : A → M B) (b : B) (out : list message) :
  m ≫= f = (Return b, out) →
  ∃ a out1 out2, m = (Return a, out1) ∧ f a = (Return b, out2) ∧ out = out1 ++ out2.
Proof.
  destruct m as [[a|e] out1]; [|done]. unfold mbind, M_bind.
  destruct (f a) as [r out2] eqn:E. intros [= -> <-]. eauto 6.
Qed.

Lemma dict_get_set_eq (d : dict) (k : str) (v : json) :
  dict_get (dict_set d k v) k = Some v.
Proof.
  induction d as [|[k' v'] d IH]; simpl.
  - by rewrite bool_decide_eq_true_2.
  - case_bool_decide as E; simpl.
    + by rewrite bool_decide_eq_true_2.
    + by rewrite bool_decide_eq_false_2.
Qed.

Lemma dict_get_set_ne (d : dict) (k k' : str) (v : json) :
  k ≠ k' → dict_get (dict_set d k v) k' = dict_get d k'.
Proof.
  intros Hne. induction d as [|[k0 v0] d IH]; simpl.
  - by rewrite bool_decide_eq_false_2.
  - case_bool_decide as E; simpl.
    + subst k0. by rewrite !bool_decide_eq_false_2.
    + by rewrite IH.
Qed.

Lemma change_of_set (player_stats original_player : dict) (stat f : str) (v : json) :
  stat ≠ f →
  change_of player_stats (dict_set original_player stat v) f
  = change_of player_stats original_player f.
Proof. intros Hne. unfold change_of. by rewrite dict_get_set_ne. Qed.

Lemma omap_change_of_set (player_stats original_player : dict) (stat : str) (v : json)
    (stats : list str) :
  stat ∉ stats →
  omap (change_of player_stats (dict_set original_player stat v)) stats
  = omap (change_of player_stats original_player) stats.
Proof.
  induction stats as [|f stats IH]; [done|].
  intros [Hne Hstats]%not_elem_of_cons. cbn [omap list_omap].
  by rewrite change_of_set, IH.
Qed.

Lemma update_stats_spec (stats : list str) (player_stats original_player : dict)
    (changes : list change) :
  NoDup stats →
  (update_stats stats player_stats original_player changes).2
  = changes ++ omap (change_of player_stats original_player) stats
  ∧ ∀ f, dict_get (update_stats stats player_stats original_player changes).1 f
         = if bool_decide (f ∈ stats)
           then match change_of player_stats original_player f with
                | Some c => Some (new_value c)
                | None => dict_get original_player f
                end
           else dict_get original_player f.
Proof.
  intros Hnd. revert original_player changes.
  induction Hnd as [|stat stats Hstat Hnd IH]; intros original_player changes.
  - simpl. split; [by rewrite app_nil_r|done].
  - pose proof (λ v, omap_change_of_set player_stats original_player stat v stats Hstat)
      as Hext.
    assert (∀ f, f ≠ stat → bool_decide (f ∈ stat :: stats) = bool_decide (f ∈ stats))
      as Hmem.
    { intros f Hne. apply bool_decide_ext. rewrite elem_of_cons.
      split; [by intros [?|?]|by right]. }
    cbn [update_stats omap list_omap].
    destruct (change_of player_stats original_player stat) as [c|] eqn:Hc.
    + unfold change_of in Hc.
      destruct (dict_get player_stats stat) as [v|] eqn:Hv; [|done]. cbv zeta in Hc.
      destruct (py_eq v (default (JInt 0) (dict_get original_player stat))) eqn:Heq;
        [done|]. injection Hc as <-.
      destruct (IH (dict_set original_player stat v)
                     (changes ++ [Change stat (default (JInt 0) (dict_get original_player stat)) v]))
        as [IH1 IH2].
      split; [by rewrite IH1, Hext, <- app_assoc|].
      intros f. rewrite IH2. destruct (decide (f = stat)) as [->|Hne].
      * rewrite bool_decide_eq_false_2 by done.
        rewrite bool_decide_eq_true_2 by left.
        unfold change_of. by rewrite Hv, Heq, dict_get_set_eq.
      * by rewrite change_of_set, dict_get_set_ne, Hmem.
    + assert (update_stats (stat :: stats) player_stats original_player changes
              = update_stats stats player_stats original_player changes) as Hskip.
      { cbn [update_stats]. unfold change_of in Hc.
        destruct (dict_get player_stats stat) as [v|]; [|done]. cbv zeta in Hc |- *.
        by destruct (py_eq v (default (JInt 0) (dict_get original_player stat))). }
      cbn [update_stats] in Hskip. rewrite Hskip.
      destruct (IH original_player changes) as [IH1 IH2]. split; [done|].
      intros f. rewrite IH2. destruct (decide (f = stat)) as [->|Hne].
      * rewrite bool_decide_eq_false_2 by done.
        rewrite bool_decide_eq_true_2 by left. by rewrite Hc.
      * by rewrite Hmem.
Qed.

Lemma update_stats_changes (stats : list str) (player_stats original_player : dict)
    (changes : list change) :
  ∃ more,
    (update_stats stats player_stats original_player changes).2 = changes ++ more
    ∧ (more = [] →
       (update_stats stats player_stats original_player changes).1 = original_player).
Proof.
  revert original_player changes.
  induction stats as [|stat stats IH]; intros original_player changes.
  - exists []. by rewrite app_nil_r.
  - cbn [update_stats]. destruct (dict_get player_stats stat) as [v|]; [|apply IH].
    cbv zeta. destruct (py_eq v _); [apply IH|].
    edestruct IH as (more & -> & _). eexists (_ :: more).
    by rewrite <- app_assoc.
Qed.

Lemma foldr_print_bullets (changes : list change) :
  (foldr (λ c k, print (Bullet c);; k) (mret ()) changes : M ()).1 = Return ().
Proof.
  induction changes as [|c changes IH]; [done|]. cbn [foldr].
  destruct (foldr _ _ changes) as [[[]|e] out]; [done|done].
Qed.

Lemma print_changes_returns (player_name : str) (changes : list change) :
  (print_changes player_name changes).1 = Return ().
Proof.
  unfold print_changes. pose proof (foldr_print_bullets (take 3 changes)) as H.
  destruct (foldr _ _ (take 3 changes)) as [[[]|e] out]; [|done].
  by case_bool_decide.
Qed.

(** The updates leave the names alone: [name] is not in [stats_to_update]. *)
Lemma merged_value_name (player_stats original_player : dict) :
  merged_value player_stats original_player (lit "name")
  = dict_get original_player (lit "name").
Proof.
  unfold merged_value.
  assert (bool_decide (lit "name" ∈ stats_to_update) = false) as -> by (by vm_compute).
  done.
Qed.

Lemma NoDup_stats_to_update : NoDup stats_to_update.
Proof. apply (bool_decide_unpack (NoDup stats_to_update)). by vm_compute. Qed.

Lemma indexes_insert (player_dict : gmap str nat) (data : list json) (i : nat)
    (player player' : json) :
  data !! i = Some player →
  (∀ name, named name player' ↔ named name player) →
  indexes player_dict data → indexes player_dict (<[i := player']> data).
Proof.
  intros Hi Hnamed Hidx name.
  assert (∀ j x, <[i := player']> data !! j = Some x →
            ∃ y, data !! j = Some y ∧ (named name x ↔ named name y)) as Hsame.
  { intros j x. destruct (decide (i = j)) as [->|Hne].
    - rewrite list_lookup_insert_eq by by eapply lookup_lt_Some.
      intros [= <-]. eauto.
    - rewrite list_lookup_insert_ne by done. eauto. }
  specialize (Hidx name). destruct (player_dict !! name) as [k|].
  - destruct Hidx as [(x & Hk & Hx) Hlater]. split.
    + destruct (decide (i = k)) as [->|Hne].
      * exists player'. rewrite list_lookup_insert_eq by by eapply lookup_lt_Some.
        split; [done|]. apply Hnamed. congruence.
      * exists x. by rewrite list_lookup_insert_ne.
    + intros j x' Hj Hl. destruct (Hsame _ _ Hl) as (y & Hy & ->). by eapply Hlater.
  - intros j x' Hl. destruct (Hsame _ _ Hl) as (y & Hy & ->). by eapply Hidx.
Qed.

Lemma import_one_found (player_dict : gmap str nat) (st : import_state) (stats : dict)
    (name : str) (i : nat) (original_player : dict) :
  dict_get stats (lit "name") = Some (JStr name) →
  strip name ≠ [] →
  player_dict !! strip name = Some i →
  fpl_data st !! i = Some (JObj original_player) →
  let updated := (update_stats stats_to_update stats original_player []).1 in
  let changes := omap (change_of stats original_player) stats_to_update in
  import_one player_dict st (JObj stats)
  = (Return (ImportState (<[i := JObj updated]> (fpl_data st))
               (updated_count st + match changes with [] => 0 | _ => 1 end)
               (not_found_count st)),
     match changes with
     | [] => [No_changes_needed (strip name)]
     | _ => (print_changes (strip name) changes).2
     end).
Proof.
  intros Hname Hstrip Hi Horig updated changes. unfold import_one.
  rewrite Hname. cbn [default from_option id]. cbv zeta.
  rewrite Hi. destruct (strip name) as [|c s] eqn:E; [done|]. rewrite Horig.
  destruct (update_stats_spec stats_to_update stats original_player []
              NoDup_stats_to_update) as [Hch _].
  fold changes in Hch. fold updated.
  destruct (update_stats stats_to_update stats original_player []) as [u ch] eqn:Eu.
  simpl in Hch. subst ch. subst updated. cbn [fst].
  destruct changes as [|c0 changes'] eqn:Ech.
  - simpl. by rewrite Nat.add_0_r.
  - pose proof (print_changes_returns (c :: s) (c0 :: changes')) as Hp.
    destruct (print_changes (c :: s) (c0 :: changes')) as [[[]|e] out]; [|done].
    simpl. by rewrite app_nil_r.
Qed.

Lemma import_one_not_found (player_dict : gmap str nat) (st : import_state)
    (stats : dict) (name : str) :
  dict_get stats (lit "name") = Some (JStr name) →
  strip name ≠ [] →
  player_dict !! strip name = None →
  import_one player_dict st (JObj stats)
  = (Return (ImportState (fpl_data st) (updated_count st) (not_found_count st + 1)),
     [Player_not_found_in_dataset (strip name)]).
Proof.
  intros Hname Hstrip Hi. unfold import_one.
  rewrite Hname. cbn [default from_option id]. cbv zeta.
  rewrite Hi. by destruct (strip name) as [|c s] eqn:E.
Qed.

Lemma indexes_lookup (player_dict : gmap str nat) (data : list json) (name : str)
    (i : nat) :
  indexes player_dict data → last_named name i data →
  player_dict !! name = Some i.
Proof.
  intros Hidx [(player & Hi & Hnamed) Hlast]. specialize (Hidx name).
  destruct (player_dict !! name) as [k|].
  - destruct Hidx as [(x & Hk & Hx) Hlater].
    destruct (Nat.lt_trichotomy k i) as [Hlt|[->|Hgt]]; [|done|].
    + by destruct (Hlater i player Hlt Hi).
    + by destruct (Hlast k x Hgt Hk).
  - by destruct (Hidx i player Hi).
Qed.

Lemma indexes_lookup_None (player_dict : gmap str nat) (data : list json) (name : str) :
  indexes player_dict data → no_record_named name data →
  player_dict !! name = None.
Proof.
  intros Hidx Hnone. specialize (Hidx name).
  destruct (player_dict !! name) as [k|]; [|done].
  destruct Hidx as [(x & Hk & Hx) _]. by destruct (Hnone k x Hk).
Qed.

Lemma no_record_named_cons (name : str) (player : json) (data : list json) :
  ¬ named name player → no_record_named name data →
  no_record_named name (player :: data).
Proof. intros Hp Hd [|j] x; simpl; [by intros [= <-]|apply Hd]. Qed.

Lemma last_named_here (name : str) (player : json) (data : list json) :
  named name player → no_record_named name data →
  last_named name 0 (player :: data).
Proof.
  intros Hp Hd. split; [by exists player|].
  intros [|j] x Hj; [lia|]. simpl. apply Hd.
Qed.

Lemma last_named_further (name : str) (i : nat) (player : json) (data : list json) :
  last_named name i data → last_named name (S i) (player :: data).
Proof.
  intros [Hi Hlater]. split; [done|].
  intros [|j] x Hj; [lia|]. simpl. apply Hlater. lia.
Qed.

Lemma build_player_dict_spec (data : list json) (i : nat) (acc pd : gmap str nat) :
  build_player_dict i data acc = Return pd →
  ∀ name,
    (no_record_named name data ∧ pd !! name = acc !! name)
    ∨ (∃ j, last_named name j data ∧ pd !! name = Some (i + j)).
Proof.
  revert i acc. induction data as [|player data IH]; intros i acc.
  - intros [= <-] name. left. by split.
  - cbn [build_player_dict]. destruct player as [| | | | |fields]; try done.
    destruct (dict_get fields (lit "name")) as [v|] eqn:Hv; [|done].
    assert (∀ name, v ≠ JStr name → ¬ named name (JObj fields)) as Hother.
    { intros name Hne (f & [= <-] & Hf). congruence. }
    assert (∀ acc', build_player_dict (S i) data acc' = Return pd →
              ∀ name, (¬ named name (JObj fields) ∧ acc' !! name = acc !! name)
                      ∨ (named name (JObj fields) ∧ acc' !! name = Some i) →
              (no_record_named name (JObj fields :: data) ∧ pd !! name = acc !! name)
              ∨ (∃ j, last_named name j (JObj fields :: data) ∧ pd !! name = Some (i + j)))
      as Hstep.
    { intros acc' Hb name Hacc.
      destruct (IH _ _ Hb name) as [[Hnone Hpd]|(j & Hlast & Hpd)].
      - destruct Hacc as [[Hn Hacc]|[Hn Hacc]].
        + left. split; [by apply no_record_named_cons|congruence].
        + right. exists 0. split; [by apply last_named_here|].
          rewrite Nat.add_0_r. congruence.
      - right. exists (S j). split; [by apply last_named_further|].
        rewrite Hpd. f_equal. lia. }
    destruct v as [| | |s| |]; try done;
      try (intros Hb name; apply (Hstep _ Hb); left; split; [by apply Hother|done]).
    intros Hb name. apply (Hstep _ Hb).
    destruct (decide (s = name)) as [->|Hne].
    + right. split; [by eexists|]. apply lookup_insert_eq.
    + left. split; [apply Hother; congruence|]. by apply lookup_insert_ne.
Qed.

Lemma build_player_dict_indexes (data : list json) (pd : gmap str nat) :
  build_player_dict 0 data ∅ = Return pd → indexes pd data.
Proof.
  intros Hb name.
  destruct (build_player_dict_spec _ _ _ _ Hb name) as [[Hnone ->]|(j & Hlast & ->)];
    [by rewrite lookup_empty|done].
Qed.

Lemma named_updated (stats original_player : dict) (name : str) :
  named name (JObj (update_stats stats_to_update stats original_player []).1)
  ↔ named name (JObj original_player).
Proof.
  destruct (update_stats_spec stats_to_update stats original_player []
              NoDup_stats_to_update) as [_ Hget].
  specialize (Hget (lit "name")).
  set (updated := (update_stats stats_to_update stats original_player []).1) in *.
  clearbody updated.
  assert (dict_get updated (lit "name") = dict_get original_player (lit "name")) as Hn.
  { rewrite Hget. exact (merged_value_name stats original_player). }
  clear Hget. unfold named.
  split; intros (f & Hf & Hv); injection Hf as <-; eexists; (split; [reflexivity|]);
    congruence.
Qed.

(** C4, as the code has it: one turn of the loop, for an update whose name
    is more than white space. The name is stripped and looked up; in the
    last record of that name each statistic of [stats_to_update] that the
    update has with a value not equal to the current one ([0] for a
    statistic the record lacks) is overwritten and the change recorded, the
    other fields stay, and the record counts as updated when there was a
    change; when no record has the name the dataset stays and the update
    counts as not found. *)
Theorem update_merges_listed_stats (player_dict : gmap str nat) (st : import_state)
    (stats : dict) (name : str) :
  indexes player_dict (fpl_data st) →
  dict_get stats (lit "name") = Some (JStr name) →
  strip name ≠ [] →
  (∀ i original_player,
     fpl_data st !! i = Some (JObj original_player) →
     last_named (strip name) i (fpl_data st) →
     let updated := (update_stats stats_to_update stats original_player []).1 in
     let changes := omap (change_of stats original_player) stats_to_update in
     import_one player_dict st (JObj stats)
     = (Return (ImportState (<[i := JObj updated]> (fpl_data st))
                  (updated_count st + match changes with [] => 0 | _ => 1 end)
                  (not_found_count st)),
        match changes with
        | [] => [No_changes_needed (strip name)]
        | _ => (print_changes (strip name) changes).2
        end)
     ∧ (∀ f, dict_get updated f = merged_value stats original_player f)
     ∧ indexes player_dict (<[i := JObj updated]> (fpl_data st)))
  ∧ (no_record_named (strip name) (fpl_data st) →
     import_one player_dict st (JObj stats)
     = (Return (ImportState (fpl_data st) (updated_count st) (not_found_count st + 1)),
        [Player_not_found_in_dataset (strip name)])).
Proof.
  intros Hidx Hname Hstrip. split.
  - intros i original_player Hi Hlast updated changes. split_and!.
    + apply import_one_found; [done|done| |done]. by eapply indexes_lookup.
    + intros f. unfold merged_value, updated.
      by destruct (update_stats_spec stats_to_update stats original_player []
                     NoDup_stats_to_update) as [_ ->].
    + eapply indexes_insert; [done| |done]. intros n. apply named_updated.
  - intros Hnone. apply import_one_not_found; [done|done|].
    by eapply indexes_lookup_None.
Qed.

Lemma import_one_count (player_dict : gmap str nat) (st st' : import_state)
    (player_stats : json) (out : list message) :
  import_one player_dict st player_stats = (Return st', out) →
  updated_count st ≤ updated_count st'
  ∧ (updated_count st' = updated_count st → fpl_data st' = fpl_data st)
  ∧ (updated_count st' ≠ updated_count st → player_dict ≠ ∅).
Proof.
  unfold import_one, raise. destruct player_stats as [| | | | |stats]; try done.
  destruct (default (JStr []) (dict_get stats (lit "name"))) as [| | |name| |]; try done.
  cbv zeta. destruct (strip name) as [|c s].
  { intros [= <- <-]. split_and!; [lia|done|done]. }
  destruct (player_dict !! _) as [i|] eqn:Hi.
  - destruct (fpl_data st !! i) as [[| | | | |original_player]|] eqn:Horig; try done.
    destruct (update_stats_changes stats_to_update stats original_player [])
      as (more & Hmore & Hsame).
    destruct (update_stats stats_to_update stats original_player [])
      as [updated changes]. simpl in Hmore, Hsame. subst changes.
    destruct more as [|c0 more].
    + intros [= <- <-]. cbn. rewrite Hsame by done.
      rewrite list_insert_id by done. split_and!; [lia|done|done].
    + pose proof (print_changes_returns (c :: s) (c0 :: more)) as Hp.
      destruct (print_changes (c :: s) (c0 :: more)) as [[[]|e] out0]; [|done].
      intros [= <- <-]. cbn. split_and!; [lia|lia|].
      intros _ ->. by rewrite lookup_empty in Hi.
  - intros [= <- <-]. cbn. split_and!; [lia|done|done].
Qed.

Lemma import_loop_count (player_dict : gmap str nat) (collected_stats : list json)
    (st st' : import_state) (out : list message) :
  import_loop player_dict st collected_stats = (Return st', out) →
  updated_count st ≤ updated_count st'
  ∧ (updated_count st' = updated_count st → fpl_data st' = fpl_data st)
  ∧ (updated_count st' ≠ updated_count st → player_dict ≠ ∅).
Proof.
  revert st out. induction collected_stats as [|player_stats rest IH]; intros st out.
  - intros [= <- <-]. split_and!; [lia|done|done].
  - cbn [import_loop].
    intros (st1 & out1 & out2 & (H1 & H2 & H3)%import_one_count
            & (H4 & H5 & H6)%IH & _)%bind_Return.
    split_and!; [lia| |].
    + intros Heq. rewrite H5, H2; [done|lia..].
    + intros Hne. destruct (decide (updated_count st1 = updated_count st)); auto.
      apply H6. congruence.
Qed.

Lemma lift_Return_bind {A B : Type} (a : A) (f : A → M B) : lift (Return a) ≫= f = f a.
Proof. unfold lift, mbind, M_bind. by destruct (f a). Qed.

Lemma print_bind {B : Type} (m : message) (f : () → M B) :
  print m ≫= f = ((f ()).1, m :: (f ()).2).
Proof. unfold print, mbind, M_bind. by destruct (f ()). Qed.

Lemma load_json_Return (fs : gmap string file) (path : string) (j : json) :
  load_json fs path = Return j ↔ fs !! path = Some (FileJson j).
Proof.
  unfold load_json. destruct (fs !! path) as [[j'|]|]; split; intros H; by simplify_eq.
Qed.

Lemma build_player_dict_array (loaded : json) (records : list json) (pd : gmap str nat) :
  py_iter loaded = Return records →
  build_player_dict 0 records ∅ = Return pd →
  pd ≠ ∅ → loaded = JArr records.
Proof.
  destruct loaded as [| | |s|items|fields]; simpl; try done.
  - destruct s; intros [= <-]; simpl; [by intros [= <-]|done].
  - by intros [= <-].
  - destruct fields; intros [= <-]; simpl; [by intros [= <-]|done].
Qed.

Lemma zero_padded_digits (width : nat) (bound n : N) :
  forallb (λ k, digits width (zero_padded width (N.of_nat k))) (seq 0 (N.to_nat bound))
  = true →
  (n < bound)%N →
  digits width (zero_padded width n) = true.
Proof.
  intros Hall Hn. rewrite forallb_forall in Hall.
  rewrite <- (N2Nat.id n). apply Hall. apply in_seq. lia.
Qed.

Lemma zero_padded_2 (n : N) : (n < 100)%N → digits 2 (zero_padded 2 n) = true.
Proof. apply (zero_padded_digits 2 100). by vm_compute. Qed.

Lemma zero_padded_4 (n : N) : (n < 10000)%N → digits 4 (zero_padded 4 n) = true.
Proof. apply (zero_padded_digits 4 10000). by vm_compute. Qed.

Lemma digits_2 (s : string) :
  digits 2 s = true →
  ∃ a b, s = String a (String b "") ∧ is_digit a = true ∧ is_digit b = true.
Proof.
  unfold digits. destruct s as [|a [|b [|c s]]]; simpl; try done.
  rewrite !andb_true_iff. intros (? & ? & _). eauto.
Qed.

Lemma digits_4 (s : string) :
  digits 4 s = true →
  ∃ a b c d, s = String a (String b (String c (String d "")))
             ∧ is_digit a = true ∧ is_digit b = true
             ∧ is_digit c = true ∧ is_digit d = true.
Proof.
  unfold digits. destruct s as [|a [|b [|c [|d [|e s]]]]]; simpl; try done.
  rewrite !andb_true_iff. intros (? & ? & ? & ? & _). eauto 10.
Qed.

Lemma strftime_shaped (t : datetime) :
  on_the_clock t → stamp_shaped (strftime_Ymd_HMS t) = true.
Proof.
  intros (Hy & Hm & Hd & Hh & Hmi & Hs). unfold strftime_Ymd_HMS.
  destruct (digits_4 _ (zero_padded_4 (year t) ltac:(lia)))
    as (y1 & y2 & y3 & y4 & -> & ? & ? & ? & ?).
  destruct (digits_2 _ (zero_padded_2 (month t) ltac:(lia))) as (m1 & m2 & -> & ? & ?).
  destruct (digits_2 _ (zero_padded_2 (day t) ltac:(lia))) as (d1 & d2 & -> & ? & ?).
  destruct (digits_2 _ (zero_padded_2 (hour t) ltac:(lia))) as (h1 & h2 & -> & ? & ?).
  destruct (digits_2 _ (zero_padded_2 (minute t) ltac:(lia))) as (i1 & i2 & -> & ? & ?).
  destruct (digits_2 _ (zero_padded_2 (second t) ltac:(lia))) as (s1 & s2 & -> & ? & ?).
  cbv -[is_digit].
  repeat match goal with H : is_digit _ = true |- _ => rewrite H; clear H end.
  done.
Qed.

(** C7: a run of the import that ends normally returns [True] exactly when
    the loop counted an updated record. Then the dataset file has been
    renamed to [fpl-data-backup-<time>.json] next to it and the records as
    the loop left them written under the old name; every other file is as
    before, and the time in the name has the shape [YYYYMMDD-HHMMSS] for a
    time the clock can show. When it returns [False] no record was changed
    and the files are as they were. *)
Theorem backup_and_write_only_on_change (fs : gmap string file) (now : datetime)
    (stats_file : string) (b : bool) (fs' : gmap string file) (out : list message) :
  import_player_stats fs now stats_file = (Return (b, fs'), out) →
  ∃ loaded,
    fs !! fpl_data_json = Some (FileJson loaded)
    ∧ if b then
        ∃ records player_dict collected collected_stats st out',
          loaded = JArr records
          ∧ build_player_dict 0 records ∅ = Return player_dict
          ∧ fs !! stats_file = Some (FileJson collected)
          ∧ py_iter collected = Return collected_stats
          ∧ import_loop player_dict (ImportState records 0 0) collected_stats
            = (Return st, out')
          ∧ 0 < updated_count st
          ∧ fs' = <[fpl_data_json := FileJson (JArr (fpl_data st))]>
                    (<["public/fpl-data-backup-" +:+ strftime_Ymd_HMS now +:+ ".json"
                       := FileJson loaded]> (delete fpl_data_json fs))
          ∧ (on_the_clock now → stamp_shaped (strftime_Ymd_HMS now) = true)
      else
        fs' = fs
        ∧ (fs !! stats_file = None
           ∨ ∃ records player_dict collected collected_stats st out',
               py_iter loaded = Return records
               ∧ build_player_dict 0 records ∅ = Return player_dict
               ∧ fs !! stats_file = Some (FileJson collected)
               ∧ py_iter collected = Return collected_stats
               ∧ import_loop player_dict (ImportState records 0 0) collected_stats
                 = (Return st, out')
               ∧ updated_count st = 0
               ∧ fpl_data st = records).
Proof.
  unfold import_player_stats. intros H.
  destruct (load_json fs fpl_data_json) as [loaded|e] eqn:Hload; [|done].
  rewrite lift_Return_bind in H. apply load_json_Return in Hload.
  exists loaded. split; [done|].
  destruct (fs !! stats_file) as [f|] eqn:Hstats.
  2:{ rewrite print_bind in H. injection H as <- <- <-. split; [done|by left]. }
  destruct (load_json fs stats_file) as [collected|e] eqn:Hcol; [|done].
  rewrite lift_Return_bind in H. apply load_json_Return in Hcol.
  destruct (py_iter loaded) as [records|e] eqn:Hrec; [|done].
  rewrite lift_Return_bind in H.
  destruct (build_player_dict 0 records ∅) as [pd|e] eqn:Hpd; [|done].
  rewrite lift_Return_bind, !print_bind in H.
  destruct (py_iter collected) as [collected_stats|e] eqn:Hit; [|done].
  rewrite lift_Return_bind in H.
  destruct (import_loop pd (ImportState records 0 0) collected_stats)
    as [[st|e] out'] eqn:Hloop; [|done].
  destruct (import_loop_count _ _ _ _ _ Hloop) as (_ & Hsame & Hpdne).
  cbn [updated_count fpl_data] in Hsame, Hpdne.
  unfold mbind at 1, M_bind at 1 in H. rewrite !print_bind in H.
  case_bool_decide as Hcount.
  - rewrite ?print_bind in H. cbv zeta in H. cbn [fst snd mret M_ret] in H.
    injection H as <- <- <-.
    assert (loaded = JArr records) as ->
      by (eapply build_player_dict_array; [done..|apply Hpdne; lia]).
    exists records, pd, collected, collected_stats, st, out'.
    split_and!; try done; [congruence| |apply strftime_shaped].
    unfold rename. by rewrite Hload.
  - rewrite ?print_bind in H. cbv zeta in H. cbn [fst snd mret M_ret] in H.
    injection H as <- <- <-.
    split; [done|]. right.
    exists records, pd, collected, collected_stats, st, out'.
    split_and!; try done; [congruence|lia|apply Hsame; lia].
Qed.

(** ** The properties on concrete data *)

Lemma update_merges_listed_stats_witness :
  import_one index_of_A (ImportState [player_entry "A" [("goals", 1%Z)]] 0 0)
    (player_entry "A" [("goals", 2%Z)])
  = (Return (ImportState [player_entry "A" [("goals", 2%Z)]] 1 0),
     [Updated (lit "A"); Bullet (Change (lit "goals") (JInt 1) (JInt 2))])
  ∧ import_one index_of_A (ImportState [player_entry "A" [("goals", 1%Z)]] 0 0)
      (player_entry "B" [("goals", 2%Z)])
    = (Return (ImportState [player_entry "A" [("goals", 1%Z)]] 0 1),
       [Player_not_found_in_dataset (lit "B")]).
Proof.
  assert (indexes index_of_A [player_entry "A" [("goals", 1%Z)]]) as Hidx
    by (by apply build_player_dict_indexes).
  split.
  - edestruct (update_merges_listed_stats index_of_A
                 (ImportState [player_entry "A" [("goals", 1%Z)]] 0 0)
                 [(lit "name", JStr (lit "A")); (lit "goals", JInt 2)] (lit "A"))
      as [Hfound _]; [exact Hidx|reflexivity|by vm_compute|].
    refine (proj1 (Hfound 0 [(lit "name", JStr (lit "A")); (lit "goals", JInt 1)]
                     eq_refl _)).
    split; [eexists; split; [done|by eexists]|]. intros [|j] x Hj; [lia|done].
  - edestruct (update_merges_listed_stats index_of_A
                 (ImportState [player_entry "A" [("goals", 1%Z)]] 0 0)
                 [(lit "name", JStr (lit "B")); (lit "goals", JInt 2)] (lit "B"))
      as [_ Hmissing]; [exact Hidx|reflexivity|by vm_compute|].
    apply Hmissing. intros [|j] x; [|done]. by intros [= <-] (f & [= <-] & Hf).
Defined.

(** C4 as stated fails: the update has another club than the record, and
    the record keeps its club, since [team] is not in [stats_to_update].
    Nor is the name looked up as it is written: the update called [" A"] is
    reported as not found although a record has exactly that name, and an
    update with an empty name is skipped without being counted. *)
Lemma unlisted_field_not_overwritten :
  (dict_get at_sociedad (lit "team") = Some (JStr (lit "RSO"))
   ∧ dict_get at_arsenal (lit "team") = Some (JStr (lit "ARS"))
   ∧ py_eq (JStr (lit "RSO")) (JStr (lit "ARS")) = false
   ∧ import_one index_of_A (ImportState [JObj at_arsenal] 0 0) (JObj at_sociedad)
     = (Return (ImportState [JObj at_arsenal] 0 0), [No_changes_needed (lit "A")]))
  ∧ (build_player_dict 0 [player_entry " A" [("goals", 1%Z)]] ∅
     = Return {[ lit " A" := 0 ]}
     ∧ import_one {[ lit " A" := 0 ]}
         (ImportState [player_entry " A" [("goals", 1%Z)]] 0 0)
         (player_entry " A" [("goals", 2%Z)])
       = (Return (ImportState [player_entry " A" [("goals", 1%Z)]] 0 1),
          [Player_not_found_in_dataset (lit "A")]))
  ∧ import_one index_of_A (ImportState [JObj at_arsenal] 0 0)
      (player_entry "" [("goals", 2%Z)])
    = (Return (ImportState [JObj at_arsenal] 0 0), [Skipping_entry_with_no_name]).
Proof. split_and!; reflexivity. Qed.

Lemma backup_and_write_only_on_change_witness :
  ∃ loaded,
    files_before !! fpl_data_json = Some (FileJson loaded)
    ∧ ∃ records player_dict collected collected_stats st out',
        loaded = JArr records
        ∧ build_player_dict 0 records ∅ = Return player_dict
        ∧ files_before !! "stats.json" = Some (FileJson collected)
        ∧ py_iter collected = Return collected_stats
        ∧ import_loop player_dict (ImportState records 0 0) collected_stats
          = (Return st, out')
        ∧ 0 < updated_count st
        ∧ files_after
          = <[fpl_data_json := FileJson (JArr (fpl_data st))]>
              (<["public/fpl-data-backup-" +:+ strftime_Ymd_HMS morning +:+ ".json"
                 := FileJson loaded]> (delete fpl_data_json files_before))
        ∧ stamp_shaped (strftime_Ymd_HMS morning) = true.
Proof.
  edestruct (backup_and_write_only_on_change files_before morning "stats.json" true
               files_after)
    as (loaded & Hloaded & records & pd & collected & collected_stats & st & out'
        & Hrecords & Hpd & Hstats & Hiter & Hloop & Hcount & Hfiles & Hstamp);
    [reflexivity|].
  exists loaded. split; [exact Hloaded|].
  exists records, pd, collected, collected_stats, st, out'.
  split_and!; [exact Hrecords|exact Hpd|exact Hstats|exact Hiter|exact Hloop
              |exact Hcount|exact Hfiles|].
  apply Hstamp. unfold on_the_clock, morning. simpl. lia.
Defined.

Lemma missing_assists_blocks_import_witness :
  validate_stats_file (stats_json second_lacks_assists) "stats.json"
  = (Return false, [Entry_missing_required_field 2 (lit "assists")])
  ∧ main (Import (Some "stats.json")) (stats_json second_lacks_assists) morning
    = (Return (stats_json second_lacks_assists),
       [Entry_missing_required_field 2 (lit "assists")]).
Proof.
  destruct (missing_assists_blocks_import (stats_json second_lacks_assists) morning
              "stats.json" second_lacks_assists 1
              [(lit "name", JStr (lit "B")); (lit "minutes", JInt 90); (lit "goals", JInt 1)])
    as (Hfails & Himport & Hreport); [reflexivity..|].
  assert (validate_stats_file (stats_json second_lacks_assists) "stats.json"
          = (Return false, [Entry_missing_required_field 2 (lit "assists")])) as Hv.
  { apply Hreport; [|by eexists..]. by repeat constructor. }
  split; [exact Hv|]. rewrite Himport. by rewrite Hv.
Defined.

(** C8 as stated fails: the second entry lacks [assists], but the
    diagnostic is for the first entry, which lacks [goals]. *)
Lemma earlier_entry_is_reported :
  first_lacks_goals !! 1 = Some (player_entry "B" [("minutes", 90); ("goals", 1)]%Z)
  ∧ dict_get [(lit "name", JStr (lit "B")); (lit "minutes", JInt 90); (lit "goals", JInt 1)]
      (lit "assists") = None
  ∧ validate_stats_file (stats_json first_lacks_goals) "stats.json"
    = (Return false, [Entry_missing_required_field 1 (lit "goals")]).
Proof. by vm_compute. Qed.

(** C9 as stated fails: on the file the command [sample] writes, which
    passes the check, [validate] prints a line. *)
Lemma validate_prints_on_success :
  main Sample ∅ morning = (Return sample_files, [Sample_file_created; Use_this_format])
  ∧ main (Validate (Some "collected_stats_sample.json")) sample_files morning
    = (Return sample_files, [File_format_is_valid 1]).
Proof. split; reflexivity. Qed.

Lemma validate_prints_one_line_witness :
  sample_files = sample_files
  ∧ ∃ m, [File_format_is_valid 1] = [m]
    ∧ ((∃ data, load_json sample_files "collected_stats_sample.json" = Return (JArr data)
                ∧ Forall (λ entry, well_formed entry = true) data
                ∧ m = File_format_is_valid (length data))
       ∨ (∃ e, load_json sample_files "collected_stats_sample.json" = Raise e
               ∧ m = Error_reading_file e)
       ∨ (∃ j, load_json sample_files "collected_stats_sample.json" = Return j
               ∧ (∀ data, j ≠ JArr data)
               ∧ m = File_must_contain_a_list)
       ∨ (∃ pre entry rest,
            load_json sample_files "collected_stats_sample.json"
            = Return (JArr (pre ++ entry :: rest))
            ∧ Forall (λ entry, well_formed entry = true) pre
            ∧ well_formed entry = false
            ∧ validate_entries (length pre) [entry] = (Return false, [m]))).
Proof.
  apply (validate_prints_one_line sample_files morning "collected_stats_sample.json").
  reflexivity.
Defined.

Lemma validate_raises_on_non_string_name_witness :
  validate_stats_file (stats_json numeric_name) "stats.json" = (Raise AttributeError, [])
  ∧ main (Validate (Some "stats.json")) (stats_json numeric_name) morning
    = (Raise AttributeError, [])
  ∧ main (Import (Some "stats.json")) (stats_json numeric_name) morning
    = (Raise AttributeError, []).
Proof.
  apply (validate_raises_on_non_string_name (stats_json numeric_name) morning "stats.json"
           [] []
           [(lit "name", JInt 7); (lit "minutes", JInt 90); (lit "goals", JInt 1);
            (lit "assists", JInt 0)]
           (JInt 7)); [reflexivity|constructor|reflexivity|reflexivity|done].
Defined.

(** * Further properties *)

(** ** Validation *)

Lemma validate_entries_all_well_formed (i : nat) (data : list json) :
  Forall (λ entry, well_formed entry = true) data →
  validate_entries i data = (Return true, []).
Proof.
  intros H. rewrite <- (app_nil_r data).
  by rewrite validate_entries_well_formed.
Qed.

(** X1: the validation returns [True] exactly for a file that holds a
    list all of whose entries are well formed, and then it prints the one
    line that gives the number of entries. *)
Theorem validate_accepts_exactly_well_formed (fs : gmap string file) (path : string)
    (out : list message) :
  validate_stats_file fs path = (Return true, out)
  ↔ ∃ data, fs !! path = Some (FileJson (JArr data))
            ∧ Forall (λ entry, well_formed entry = true) data
            ∧ out = [File_format_is_valid (length data)].
Proof.
  split.
  - unfold validate_stats_file.
    destruct (load_json fs path) as [j|e] eqn:Hload.
    + apply load_json_Return in Hload.
      destruct j as [| | | |data|]; try done.
      destruct (validate_entries 0 data) as [[[]|e] out0] eqn:E; try done.
      apply validate_entries_first_violation in E as [Hwf ->].
      intros [= <-]. eauto.
    + by destruct (is_Exception e).
  - intros (data & Hload%load_json_Return & Hwf & ->).
    rewrite (validate_stats_file_array _ _ _ Hload).
    by rewrite validate_entries_all_well_formed.
Qed.

Lemma first_missing_name (fields : dict) :
  first_missing fields required_fields = None →
  dict_get fields (lit "name") ≠ None.
Proof. cbn [first_missing required_fields]. by repeat case_match. Qed.

Lemma validate_entries_raises (i : nat) (data : list json) (e : exn) (out : list message) :
  validate_entries i data = (Raise e, out) →
  e = AttributeError ∧ out = []
  ∧ ∃ pre fields name rest,
      data = pre ++ JObj fields :: rest
      ∧ Forall (λ entry, well_formed entry = true) pre
      ∧ first_missing fields required_fields = None
      ∧ dict_get fields (lit "name") = Some name
      ∧ ∀ s, name ≠ JStr s.
Proof.
  revert i. induction data as [|entry data IH]; intros i; [done|].
  destruct (well_formed entry) eqn:Hwf.
  - change (entry :: data) with ([entry] ++ data).
    rewrite (validate_entries_well_formed i [entry] data) by (by constructor).
    intros (-> & -> & pre & fields & name & rest & -> & Hpre & Hm & Hn & Hs)%IH.
    split_and!; [done..|]. exists (entry :: pre), fields, name, rest.
    split_and!; try done. by constructor.
  - cbn [validate_entries]. unfold well_formed in Hwf. unfold raise.
    destruct entry as [| | | | |fields]; try done.
    destruct (first_missing fields required_fields) eqn:Hm; [done|].
    pose proof (first_missing_name _ Hm) as Hn.
    destruct (dict_get fields (lit "name")) as [name|] eqn:Hname; [|done].
    intros H. assert (e = AttributeError ∧ out = [] ∧ ∀ s, name ≠ JStr s) as (-> & -> & Hs).
    { destruct name; try (injection H as <- <-; by split_and!).
      by destruct (strip s). }
    split_and!; [done..|]. exists [], fields, name, data. by split_and!.
Qed.

(** X2: the validation raises only in one way: the first entry that is not
    well formed is an object with the four required fields whose name is not
    a string. The exception is [AttributeError] and nothing has been
    printed. *)
Theorem validate_raises_only_for_a_name (fs : gmap string file) (path : string)
    (e : exn) (out : list message) :
  validate_stats_file fs path = (Raise e, out) →
  e = AttributeError ∧ out = []
  ∧ ∃ pre fields name rest,
      fs !! path = Some (FileJson (JArr (pre ++ JObj fields :: rest)))
      ∧ Forall (λ entry, well_formed entry = true) pre
      ∧ first_missing fields required_fields = None
      ∧ dict_get fields (lit "name") = Some name
      ∧ ∀ s, name ≠ JStr s.
Proof.
  unfold validate_stats_file.
  destruct (load_json fs path) as [j|e'] eqn:Hload.
  - apply load_json_Return in Hload.
    destruct j as [| | | |data|]; try done.
    destruct (validate_entries 0 data) as [[[]|e'] out0] eqn:E; try done.
    intros [= <- <-].
    apply validate_entries_raises in E
      as (-> & -> & pre & fields & name & rest & -> & H).
    split_and!; [done..|]. by exists pre, fields, name, rest.
  - unfold load_json in Hload. destruct (fs !! path) as [[]|]; by simplify_eq.
Qed.

Lemma validate_raises_only_for_a_name_witness :
  AttributeError = AttributeError ∧ @nil message = []
  ∧ ∃ pre fields name rest,
      stats_json numeric_name !! "stats.json"
      = Some (FileJson (JArr (pre ++ JObj fields :: rest)))
      ∧ Forall (λ entry, well_formed entry = true) pre
      ∧ first_missing fields required_fields = None
      ∧ dict_get fields (lit "name") = Some name
      ∧ ∀ s, name ≠ JStr s.
Proof.
  apply (validate_raises_only_for_a_name (stats_json numeric_name) "stats.json").
  reflexivity.
Defined.

(** ** Merge and update *)

(** What one turn of the loop can do when it does not raise. *)
Lemma import_one_cases (player_dict : gmap str nat) (st st' : import_state)
    (player_stats : json) (out : list message) :
  import_one player_dict st player_stats = (Return st', out) →
  st' = st
  ∨ (∃ i stats original_player,
       player_stats = JObj stats
       ∧ fpl_data st !! i = Some (JObj original_player)
       ∧ fpl_data st'
         = <[i := JObj (update_stats stats_to_update stats original_player []).1]>
             (fpl_data st)
       ∧ not_found_count st' = not_found_count st
       ∧ (updated_count st' = updated_count st
          ∨ updated_count st' = updated_count st + 1))
  ∨ (fpl_data st' = fpl_data st
     ∧ updated_count st' = updated_count st
     ∧ not_found_count st' = not_found_count st + 1).
Proof.
  unfold import_one, raise. destruct player_stats as [| | | | |stats]; try done.
  destruct (default (JStr []) (dict_get stats (lit "name"))) as [| | |name| |]; try done.
  cbv zeta. destruct (strip name) as [|c s].
  { intros [= <- <-]. by left. }
  destruct (player_dict !! _) as [i|] eqn:Hi.
  - destruct (fpl_data st !! i) as [[| | | | |original_player]|] eqn:Horig; try done.
    right; left. exists i, stats, original_player.
    destruct (update_stats stats_to_update stats original_player [])
      as [updated changes]. destruct changes as [|c0 more].
    + injection H as <- <-. cbn. split_and!; try done. by left.
    + pose proof (print_changes_returns (c :: s) (c0 :: more)) as Hp.
      destruct (print_changes (c :: s) (c0 :: more)) as [[[]|e] out0]; [|done].
      injection H as <- <-. cbn. split_and!; try done. by right.
  - intros [= <- <-]. right; right. by cbn.
Qed.

Lemma kept_refl (data : list json) : kept data data.
Proof.
  split; [done|]. intros i x Hi. exists x. split; [done|].
  destruct x; try done. eauto.
Qed.

Lemma kept_trans (data1 data2 data3 : list json) :
  kept data1 data2 → kept data2 data3 → kept data1 data3.
Proof.
  intros [Hl1 H1] [Hl2 H2]. split; [congruence|].
  intros i x Hi. destruct (H1 i x Hi) as (y & Hy & Hxy).
  destruct (H2 i y Hy) as (z & Hz & Hyz). exists z. split; [done|].
  destruct x; try (subst y; done).
  destruct Hxy as (f2 & -> & Hf2). destruct Hyz as (f3 & -> & Hf3).
  exists f3. split; [done|]. intros f Hf. by rewrite Hf3, Hf2.
Qed.

Lemma update_stats_outside (stats original_player : dict) (f : str) :
  f ∉ stats_to_update →
  dict_get (update_stats stats_to_update stats original_player []).1 f
  = dict_get original_player f.
Proof.
  intros Hf.
  destruct (update_stats_spec stats_to_update stats original_player []
              NoDup_stats_to_update) as [_ ->].
  by rewrite bool_decide_eq_false_2.
Qed.

Lemma kept_insert (data : list json) (i : nat) (stats original_player : dict) :
  data !! i = Some (JObj original_player) →
  kept data (<[i := JObj (update_stats stats_to_update stats original_player []).1]> data).
Proof.
  intros Hi. split; [by rewrite length_insert|].
  intros j x Hj. destruct (decide (i = j)) as [<-|Hne].
  - rewrite list_lookup_insert_eq by by eapply lookup_lt_Some.
    eexists. split; [done|]. assert (x = JObj original_player) as -> by congruence.
    eexists. split; [done|]. intros f Hf. by apply update_stats_outside.
  - rewrite list_lookup_insert_ne by done. exists x. split; [done|].
    destruct x; try done. eauto.
Qed.

(** X4: the loop over the collected statistics keeps the dataset in
    shape: as many records, in the same places, and in each of them every
    field outside [stats_to_update], the name among them, as it was. *)
Theorem import_keeps_the_records (player_dict : gmap str nat)
    (collected_stats : list json) (st st' : import_state) (out : list message) :
  import_loop player_dict st collected_stats = (Return st', out) →
  kept (fpl_data st) (fpl_data st').
Proof.
  revert st out. induction collected_stats as [|player_stats rest IH]; intros st out.
  - intros [= <- <-]. apply kept_refl.
  - cbn [import_loop].
    intros (st1 & out1 & out2 & H1 & H2%IH & _)%bind_Return.
    eapply kept_trans; [|done].
    destruct (import_one_cases _ _ _ _ _ H1)
      as [->|[(i & stats & orig & _ & Hi & -> & _)|(-> & _)]];
      [apply kept_refl|by apply kept_insert|apply kept_refl].
Qed.

Lemma import_keeps_the_records_witness :
  kept [JObj at_arsenal] [JObj (dict_set at_arsenal (lit "goals") (JInt 2))].
Proof.
  eapply (import_keeps_the_records index_of_A [player_entry "A" [("goals", 2%Z)]]
            (ImportState [JObj at_arsenal] 0 0) (ImportState _ 1 0)).
  reflexivity.
Defined.

Lemma import_loop_well_formed (player_dict : gmap str nat) (collected_stats : list json)
    (st : import_state) :
  indexes player_dict (fpl_data st) →
  Forall (λ entry, well_formed entry = true) collected_stats →
  ∃ st' out, import_loop player_dict st collected_stats = (Return st', out).
Proof.
  intros Hidx Hwf. revert st Hidx.
  induction Hwf as [|entry rest Hentry _ IH]; intros st Hidx; [by eexists _, _|].
  cbn [import_loop]. unfold well_formed in Hentry.
  destruct entry as [| | | | |stats]; try done.
  destruct (first_missing stats required_fields); [done|].
  destruct (dict_get stats (lit "name")) as [[| | |name| |]|] eqn:Hname; try done.
  assert (strip name ≠ []) as Hstrip by (by destruct (strip name)).
  pose proof (Hidx (strip name)) as Hlook.
  destruct (player_dict !! strip name) as [i|] eqn:Hi.
  - destruct Hlook as [(player & Hplayer & fields & -> & Hfields) _].
    rewrite (import_one_found _ _ _ _ _ _ Hname Hstrip Hi Hplayer). cbv zeta.
    set (st1 := ImportState _ _ _).
    destruct (IH st1) as (st' & out' & Hloop).
    { subst st1. cbn [fpl_data]. eapply indexes_insert; [done| |done].
      intros n. apply named_updated. }
    unfold mbind, M_bind. rewrite Hloop. by eexists _, _.
  - rewrite (import_one_not_found _ _ _ _ Hname Hstrip Hi).
    set (st1 := ImportState _ _ _).
    destruct (IH st1) as (st' & out' & Hloop); [done|].
    unfold mbind, M_bind. rewrite Hloop. by eexists _, _.
Qed.

(** A value that is not a list or an object is equal to itself. *)
Lemma py_eq_scalar (v : json) : scalar v = true → py_eq v v = true.
Proof. destruct v; simpl; try done; intros _; by apply bool_decide_eq_true_2. Qed.

Lemma omap_all_None {A B : Type} (g : A → option B) (l : list A) :
  Forall (λ x, g x = None) l → omap g l = [].
Proof. induction 1 as [|x l Hx _ IH]; [done|]. cbn [omap list_omap]. by rewrite Hx. Qed.

Lemma change_of_updated (stats original_player : dict) (f : str) :
  f ∈ stats_to_update →
  (∀ v, dict_get stats f = Some v → py_eq v v = true) →
  change_of stats (update_stats stats_to_update stats original_player []).1 f = None.
Proof.
  intros Hf Hrefl.
  destruct (update_stats_spec stats_to_update stats original_player []
              NoDup_stats_to_update) as [_ Hget].
  specialize (Hget f). rewrite bool_decide_eq_true_2 in Hget by done.
  unfold change_of in *. rewrite Hget.
  destruct (dict_get stats f) as [v|] eqn:Hv; [|done]. cbv zeta.
  destruct (py_eq v (default (JInt 0) (dict_get original_player f))) eqn:Heq.
  - by rewrite Heq.
  - cbn [new_value default from_option id]. by rewrite Hrefl.
Qed.

(** X5: an update is idempotent when each statistic it brings is equal to
    itself under [==], as integers, strings, booleans and [None] are
    ([py_eq_scalar]). Applying such an entry a second time finds nothing to
    change: it reports that no changes are needed, leaves the dataset as
    the first application made it and counts nothing. *)
Theorem repeated_update_changes_nothing (player_dict : gmap str nat) (st : import_state)
    (stats : dict) (name : str) (i : nat) (original_player : dict) :
  dict_get stats (lit "name") = Some (JStr name) →
  strip name ≠ [] →
  player_dict !! strip name = Some i →
  fpl_data st !! i = Some (JObj original_player) →
  (∀ f v, f ∈ stats_to_update → dict_get stats f = Some v → py_eq v v = true) →
  ∃ st1 out1,
    import_one player_dict st (JObj stats) = (Return st1, out1)
    ∧ import_one player_dict st1 (JObj stats)
      = (Return st1, [No_changes_needed (strip name)]).
Proof.
  intros Hname Hstrip Hi Horig Hrefl.
  rewrite (import_one_found _ _ _ _ _ _ Hname Hstrip Hi Horig). cbv zeta.
  eexists _, _. split; [done|].
  set (updated := (update_stats stats_to_update stats original_player []).1).
  set (st1 := ImportState _ _ _).
  assert (fpl_data st1 !! i = Some (JObj updated)) as Hupdated.
  { subst st1. cbn [fpl_data]. apply list_lookup_insert_eq. by eapply lookup_lt_Some. }
  rewrite (import_one_found _ _ _ _ _ _ Hname Hstrip Hi Hupdated). cbv zeta.
  assert (omap (change_of stats updated) stats_to_update = []) as ->.
  { apply omap_all_None, Forall_forall. intros f Hf.
    apply change_of_updated; [done|]. intros v. by apply Hrefl. }
  destruct (update_stats_changes stats_to_update stats updated []) as (more & Hmore & Hsame).
  destruct (update_stats_spec stats_to_update stats updated [] NoDup_stats_to_update)
    as [Hch _].
  rewrite Hch in Hmore. rewrite Hsame.
  - rewrite list_insert_id by done. destruct st1. cbn. by rewrite !Nat.add_0_r.
  - change ([] ++ more) with more in Hmore. subst more. apply omap_all_None, Forall_forall.
    intros f Hf. apply change_of_updated; [done|]. intros v. by apply Hrefl.
Qed.

Lemma repeated_update_changes_nothing_witness :
  ∃ st1 out1,
    import_one index_of_A (ImportState [player_entry "A" [("goals", 1%Z)]] 0 0)
      (player_entry "A" [("goals", 2%Z)]) = (Return st1, out1)
    ∧ import_one index_of_A st1 (player_entry "A" [("goals", 2%Z)])
      = (Return st1, [No_changes_needed (strip (lit "A"))]).
Proof.
  apply (repeated_update_changes_nothing index_of_A
           (ImportState [player_entry "A" [("goals", 1%Z)]] 0 0)
           [(lit "name", JStr (lit "A")); (lit "goals", JInt 2)] (lit "A") 0
           [(lit "name", JStr (lit "A")); (lit "goals", JInt 1)]);
    [reflexivity|by vm_compute|reflexivity|reflexivity|].
  intros f v _ Hv. apply py_eq_scalar. revert Hv.
  simpl. repeat case_bool_decide; by intros [= <-].
Defined.

Lemma foldr_print_bullets_out (changes : list change) :
  (foldr (λ c k, print (Bullet c);; k) (mret ()) changes : M ())
  = (Return (), Bullet <$> changes).
Proof.
  induction changes as [|c changes IH]; [done|]. cbn [foldr fmap list_fmap].
  rewrite print_bind. by rewrite IH.
Qed.

Lemma print_changes_out (player_name : str) (changes : list change) :
  print_changes player_name changes
  = (Return (),
     Updated player_name :: (Bullet <$> take 3 changes)
     ++ if bool_decide (3 < length changes)
        then [And_more_changes (length changes - 3)] else []).
Proof.
  unfold print_changes. rewrite print_bind.
  rewrite foldr_print_bullets_out. unfold mbind, M_bind.
  case_bool_decide; cbn [print mret M_ret fst snd]; [done|]. by rewrite app_nil_r.
Qed.

Lemma filter_bullets (p : message → bool) (changes : list change) :
  (∀ c, p (Bullet c) = false) → List.filter p (Bullet <$> changes) = [].
Proof.
  intros Hp. induction changes as [|c changes IH]; [done|].
  cbn [fmap list_fmap List.filter]. by rewrite Hp.
Qed.

Lemma filter_update_report (p : message → bool) (player_name : str)
    (changes : list change) (tail : list message) :
  (∀ c, p (Bullet c) = false) → Forall (λ m, p m = false) tail →
  List.filter p (Updated player_name :: (Bullet <$> take 3 changes) ++ tail)
  = if p (Updated player_name) then [Updated player_name] else [].
Proof.
  intros Hb Ht. cbn [List.filter].
  rewrite List.filter_app, filter_bullets by done.
  assert (List.filter p tail = []) as ->.
  { induction Ht as [|m tail Hm _ IH]; [done|]. cbn. by rewrite Hm. }
  done.
Qed.

Lemma import_one_report (player_dict : gmap str nat) (st st' : import_state)
    (player_stats : json) (out : list message) :
  import_one player_dict st player_stats = (Return st', out) →
  length (List.filter headline out) = 1
  ∧ updated_count st' = updated_count st + length (List.filter reports_update out)
  ∧ not_found_count st' = not_found_count st + length (List.filter reports_missing out).
Proof.
  unfold import_one, raise. destruct player_stats as [| | | | |stats]; try done.
  destruct (default (JStr []) (dict_get stats (lit "name"))) as [| | |name| |]; try done.
  cbv zeta. destruct (strip name) as [|c s].
  { intros [= <- <-]. cbn. lia. }
  destruct (player_dict !! _) as [i|].
  - destruct (fpl_data st !! i) as [[| | | | |original_player]|]; try done.
    destruct (update_stats stats_to_update stats original_player [])
      as [updated changes]. destruct changes as [|c0 more].
    + intros [= <- <-]. cbn. lia.
    + generalize (c0 :: more). intros changes.
      rewrite print_changes_out. unfold mbind, M_bind, mret, M_ret.
      intros [= <- <-]. rewrite app_nil_r.
      rewrite !filter_update_report; [cbn; lia|try done; case_bool_decide; by repeat constructor..].
  - intros [= <- <-]. cbn. lia.
Qed.

(** X6: the report accounts for every entry: each entry of the collected
    statistics gets exactly one first line (skipped, updated, no changes
    needed, not found), and the two counts of the summary are the numbers
    of "updated" and of "not found" lines printed. *)
Theorem report_accounts_for_every_entry (player_dict : gmap str nat)
    (collected_stats : list json) (st st' : import_state) (out : list message) :
  import_loop player_dict st collected_stats = (Return st', out) →
  length (List.filter headline out) = length collected_stats
  ∧ updated_count st' = updated_count st + length (List.filter reports_update out)
  ∧ not_found_count st' = not_found_count st + length (List.filter reports_missing out).
Proof.
  revert st out. induction collected_stats as [|player_stats rest IH]; intros st out.
  - intros [= <- <-]. cbn. lia.
  - cbn [import_loop].
    intros (st1 & out1 & out2 & H1 & H2 & ->)%bind_Return.
    apply import_one_report in H1 as (Hh1 & Hu1 & Hm1).
    apply IH in H2 as (Hh2 & Hu2 & Hm2).
    rewrite !List.filter_app, !length_app. cbn [length]. lia.
Qed.

Lemma report_accounts_for_every_entry_witness :
  ∃ st' out,
    import_loop index_of_A (ImportState [JObj at_arsenal] 0 0)
      [player_entry "A" [("goals", 2%Z)]; player_entry "" [("goals", 2%Z)];
       player_entry "B" [("goals", 2%Z)]] = (Return st', out)
    ∧ length (List.filter headline out) = 3
    ∧ updated_count st' = 0 + length (List.filter reports_update out)
    ∧ not_found_count st' = 0 + length (List.filter reports_missing out).
Proof.
  eexists _, _. split; [reflexivity|].
  apply (report_accounts_for_every_entry index_of_A
           [player_entry "A" [("goals", 2%Z)]; player_entry "" [("goals", 2%Z)];
            player_entry "B" [("goals", 2%Z)]]
           (ImportState [JObj at_arsenal] 0 0)).
  reflexivity.
Defined.

(** ** The import on the console *)

Lemma encodable_strip (s : str) : encodable s = true → encodable (strip s) = true.
Proof.
  unfold encodable. rewrite !forallb_forall.
  intros H c Hc%list_elem_of_In%elem_of_strip%list_elem_of_In. auto.
Qed.

Lemma dict_get_shown (fields : dict) (k : str) (v : json) :
  forallb (λ kv, encodable_value kv.2) fields = true →
  dict_get fields k = Some v → encodable_value v = true.
Proof.
  induction fields as [|[k' v'] fields IH]; [done|].
  cbn [forallb dict_get snd]. intros [Hv Hrest]%andb_true_iff.
  case_bool_decide; [by intros [= <-]|auto].
Qed.

Lemma dict_set_shown (fields : dict) (k : str) (v : json) :
  forallb (λ kv, encodable_value kv.2) fields = true →
  encodable_value v = true →
  forallb (λ kv, encodable_value kv.2) (dict_set fields k v) = true.
Proof.
  intros Hfields Hv. induction fields as [|[k' v'] fields IH]; cbn [dict_set].
  - cbn. by rewrite Hv.
  - cbn [forallb snd] in Hfields. apply andb_true_iff in Hfields as [Hv' Hrest].
    case_bool_decide; cbn [forallb snd]; apply andb_true_iff; auto.
Qed.

Lemma update_stats_shown (stats_list : list str) (stats original_player : dict)
    (changes : list change) :
  forallb encodable stats_list = true →
  forallb (λ kv, encodable_value kv.2) stats = true →
  forallb (λ kv, encodable_value kv.2) original_player = true →
  Forall (λ c, printable (Bullet c) = true) changes →
  forallb (λ kv, encodable_value kv.2)
    (update_stats stats_list stats original_player changes).1 = true
  ∧ Forall (λ c, printable (Bullet c) = true)
      (update_stats stats_list stats original_player changes).2.
Proof.
  intros Hlist Hstats. revert original_player changes.
  induction stats_list as [|stat stats_list IH]; intros original_player changes Horig Hch;
    [done|].
  cbn [forallb] in Hlist. apply andb_true_iff in Hlist as [Hstat Hlist].
  cbn [update_stats].
  destruct (dict_get stats stat) as [new|] eqn:Hnew; [|by apply IH].
  cbv zeta. destruct (py_eq new _); [by apply IH|].
  pose proof (dict_get_shown _ _ _ Hstats Hnew) as Hnew'.
  apply IH; [done|by apply dict_set_shown|].
  apply Forall_app. split; [done|]. constructor; [|done].
  cbn [printable change_stat old_value new_value]. rewrite Hstat, Hnew'.
  destruct (dict_get original_player stat) as [old|] eqn:Hold; [|done].
  cbn [default from_option id]. by rewrite (dict_get_shown _ _ _ Horig Hold).
Qed.

Lemma written_printable (out : list message) :
  Forall (λ m, printable m = true) out → written out = (out, true).
Proof.
  induction 1 as [|m out Hm _ IH]; [done|]. cbn [written]. by rewrite Hm, IH.
Qed.

Lemma on_stdout_printable {A : Type} (run : M A) :
  Forall (λ m, printable m = true) run.2 → on_stdout run = run.
Proof.
  intros H. unfold on_stdout. rewrite (written_printable _ H). by destruct run.
Qed.

Lemma printable_print_changes (player_name : str) (changes : list change) :
  encodable player_name = true →
  Forall (λ c, printable (Bullet c) = true) changes →
  Forall (λ m, printable m = true) (print_changes player_name changes).2.
Proof.
  intros Hname Hch. rewrite print_changes_out. cbn [snd].
  constructor; [done|]. apply Forall_app. split.
  - apply Forall_fmap. by apply Forall_take.
  - case_bool_decide; by repeat constructor.
Qed.

Lemma import_one_printable (player_dict : gmap str nat) (st st' : import_state)
    (entry : json) (out : list message) :
  import_one player_dict st entry = (Return st', out) →
  shown entry = true →
  Forall (λ record, shown record = true) (fpl_data st) →
  Forall (λ m, printable m = true) out
  ∧ Forall (λ record, shown record = true) (fpl_data st').
Proof.
  unfold import_one, raise. destruct entry as [| | | | |stats]; try done.
  intros Hrun Hstats Hdata. cbn [shown] in Hstats. revert Hrun.
  assert (∀ name, default (JStr []) (dict_get stats (lit "name")) = JStr name →
            encodable name = true) as Hname.
  { intros name. destruct (dict_get stats (lit "name")) as [v|] eqn:Hv.
    - cbn [default from_option id]. intros ->. by apply (dict_get_shown _ _ _ Hstats Hv).
    - by intros [= <-]. }
  destruct (default (JStr []) (dict_get stats (lit "name"))) as [| | |name| |]; try done.
  specialize (Hname name eq_refl). apply encodable_strip in Hname.
  cbv zeta. destruct (strip name) as [|c s].
  { intros [= <- <-]. split; [by repeat constructor|done]. }
  destruct (player_dict !! _) as [i|].
  - destruct (fpl_data st !! i) as [[| | | | |original_player]|] eqn:Horig; try done.
    assert (forallb (λ kv, encodable_value kv.2) original_player = true) as Hrecord.
    { eapply Forall_lookup_1 in Hdata; [|done]. done. }
    assert (forallb encodable stats_to_update = true) as Hlist by reflexivity.
    destruct (update_stats_shown stats_to_update stats original_player []
                Hlist Hstats Hrecord ltac:(constructor)) as [Hupdated Hchanges].
    destruct (update_stats stats_to_update stats original_player [])
      as [updated changes]. cbn [fst snd] in Hupdated, Hchanges.
    assert (Forall (λ record, shown record = true)
              (<[i := JObj updated]> (fpl_data st))) as Hdata'.
    { apply Forall_insert; done. }
    destruct changes as [|c0 more].
    + intros [= <- <-]. split; [by repeat constructor|done].
    + pose proof (printable_print_changes (c :: s) (c0 :: more) Hname Hchanges) as Hp.
      revert Hp. generalize (c0 :: more). intros changes Hp.
      rewrite print_changes_out in *. cbn [snd] in Hp.
      unfold mbind, M_bind, mret, M_ret. intros [= <- <-].
      rewrite app_nil_r. done.
  - intros [= <- <-]. split; [by repeat constructor|done].
Qed.

Lemma import_loop_printable (player_dict : gmap str nat) (collected_stats : list json)
    (st st' : import_state) (out : list message) :
  import_loop player_dict st collected_stats = (Return st', out) →
  Forall (λ entry, shown entry = true) collected_stats →
  Forall (λ record, shown record = true) (fpl_data st) →
  Forall (λ m, printable m = true) out.
Proof.
  revert st out. induction collected_stats as [|entry rest IH]; intros st out.
  - by intros [= <- <-].
  - cbn [import_loop].
    intros (st1 & out1 & out2 & H1 & H2 & ->)%bind_Return Hshown Hdata.
    apply Forall_cons in Hshown as [Hentry Hrest].
    destruct (import_one_printable _ _ _ _ _ H1 Hentry Hdata) as [Hout1 Hdata1].
    apply Forall_app. split; [done|]. by eapply IH.
Qed.

Lemma import_one_reported (player_dict : gmap str nat) (st st' : import_state)
    (entry : json) (out : list message) :
  import_one player_dict st entry = (Return st', out) →
  well_formed entry = true →
  ∃ line, List.filter headline out = [line] ∧ reported player_dict entry line.
Proof.
  unfold well_formed. destruct entry as [| | | | |stats]; try done.
  destruct (first_missing stats required_fields); [done|].
  destruct (dict_get stats (lit "name")) as [[| | |name| |]|] eqn:Hname; try done.
  intros Hrun Hstrip. revert Hrun. unfold import_one, raise. rewrite Hname.
  cbn [default from_option id]. cbv zeta.
  unfold reported.
  destruct (strip name) as [|c s] eqn:Es; [done|].
  destruct (player_dict !! _) as [i|] eqn:Hi.
  - destruct (fpl_data st !! i) as [[| | | | |original_player]|]; try done.
    destruct (update_stats stats_to_update stats original_player [])
      as [updated changes]. destruct changes as [|c0 more].
    + intros [= <- <-]. eexists. split; [done|].
      exists stats, name. rewrite Es, Hi. split_and!; [done|done|by right].
    + generalize (c0 :: more). intros changes.
      rewrite print_changes_out. unfold mbind, M_bind, mret, M_ret.
      intros [= <- <-]. rewrite app_nil_r.
      rewrite filter_update_report;
        [|done|case_bool_decide; by repeat constructor].
      eexists. split; [done|].
      exists stats, name. rewrite Es, Hi. split_and!; [done|done|by left].
  - intros [= <- <-]. eexists. split; [done|].
    exists stats, name. rewrite Es, Hi. by split_and!.
Qed.

Lemma import_loop_reported (player_dict : gmap str nat) (collected_stats : list json)
    (st st' : import_state) (out : list message) :
  import_loop player_dict st collected_stats = (Return st', out) →
  Forall (λ entry, well_formed entry = true) collected_stats →
  Forall2 (reported player_dict) collected_stats (List.filter headline out).
Proof.
  revert st out. induction collected_stats as [|entry rest IH]; intros st out.
  - intros [= <- <-] _. constructor.
  - cbn [import_loop].
    intros (st1 & out1 & out2 & H1 & H2 & ->)%bind_Return Hwf.
    apply Forall_cons in Hwf as [Hentry Hrest].
    destruct (import_one_reported _ _ _ _ _ H1 Hentry) as (line & Hline & Hrep).
    rewrite List.filter_app, Hline. constructor; [done|]. by eapply IH.
Qed.

Lemma Return_bind {A B : Type} (a : A) (out : list message) (f : A → M B) :
  (Return a, out) ≫= f = ((f a).1, out ++ (f a).2).
Proof. unfold mbind, M_bind. by destruct (f a). Qed.

(** The lines of an import whose loop returns. *)
Lemma import_player_stats_lines (fs : gmap string file) (now : datetime)
    (stats_file : string) (records data : list json) (player_dict : gmap str nat)
    (st : import_state) (loop_out : list message) :
  fs !! fpl_data_json = Some (FileJson (JArr records)) →
  fs !! stats_file = Some (FileJson (JArr data)) →
  build_player_dict 0 records ∅ = Return player_dict →
  import_loop player_dict (ImportState records 0 0) data = (Return st, loop_out) →
  ∃ r tail,
    import_player_stats fs now stats_file
    = (Return r,
       [Importing_collected_player_stats; Rule] ++ loop_out
       ++ [Rule; Import_summary; Players_updated (updated_count st);
           Players_not_found (not_found_count st)] ++ tail)
    ∧ Forall (λ m, printable m = true) tail
    ∧ List.filter headline tail = [].
Proof.
  intros Hdata Hstats Hpd Hloop. unfold import_player_stats.
  rewrite (proj2 (load_json_Return _ _ _) Hdata), lift_Return_bind, Hstats.
  rewrite (proj2 (load_json_Return _ _ _) Hstats), lift_Return_bind.
  cbn [py_iter]. rewrite lift_Return_bind, Hpd, lift_Return_bind, !print_bind.
  rewrite lift_Return_bind, Hloop.
  rewrite !Return_bind. cbv beta.
  case_bool_decide; unfold mbind, M_bind, print, mret, M_ret; cbn [fst snd].
  - eexists _, [Backed_up_to _; Saved_to_fpl_data].
    split_and!; [reflexivity|by repeat constructor|done].
  - eexists _, [No_updates_made].
    split_and!; [reflexivity|by repeat constructor|done].
Qed.

(** X3: on a console that shows every character but the surrogates, the
    import of a file that passes the validation does not raise, provided
    the dataset is a list of objects with names and no value of an entry or
    of a record is a string with a surrogate in it. Every entry is then
    reported, in the order of the file, as merged into the record of its
    name (updated, or no changes needed) when the dataset has the name, and
    as not found when it has not. *)
Theorem validated_import_does_not_raise (fs : gmap string file) (now : datetime)
    (stats_file : string) (out : list message) (records data : list json)
    (player_dict : gmap str nat) :
  validate_stats_file fs stats_file = (Return true, out) →
  fs !! stats_file = Some (FileJson (JArr data)) →
  fs !! fpl_data_json = Some (FileJson (JArr records)) →
  build_player_dict 0 records ∅ = Return player_dict →
  Forall (λ entry, shown entry = true) data →
  Forall (λ record, shown record = true) records →
  ∃ fs' out',
    on_stdout (main (Import (Some stats_file)) fs now) = (Return fs', out')
    ∧ Forall2 (reported player_dict) data (List.filter headline out').
Proof.
  intros Hvalid Hstats Hdata Hpd Hshown Hrecords.
  assert (Forall (λ entry, well_formed entry = true) data
          ∧ out = [File_format_is_valid (length data)]) as [Hwf ->].
  { rewrite (validate_stats_file_array _ _ data) in Hvalid
      by by apply load_json_Return.
    destruct (validate_entries 0 data) as [[[]|e] out0] eqn:E; try done.
    apply validate_entries_first_violation in E as [Hwf ->].
    by injection Hvalid as <-. }
  destruct (import_loop_well_formed player_dict data (ImportState records 0 0))
    as (st & loop_out & Hloop); [by apply build_player_dict_indexes|done|].
  destruct (import_player_stats_lines fs now stats_file records data player_dict
              st loop_out Hdata Hstats Hpd Hloop) as (r & tail & Hrun & Htail & Hquiet).
  pose proof (import_loop_printable _ _ _ _ _ Hloop Hshown Hrecords) as Hprintable.
  pose proof (import_loop_reported _ _ _ _ _ Hloop Hwf) as Hreported.
  cbn [main]. rewrite Hvalid. unfold mbind at 1, M_bind at 1.
  rewrite Hrun. unfold mbind, M_bind, mret, M_ret.
  rewrite on_stdout_printable.
  - eexists _, _. split; [reflexivity|].
    rewrite app_nil_r, !List.filter_app, Hquiet. cbn [List.filter headline app].
    by rewrite app_nil_r.
  - cbn [snd]. rewrite app_nil_r.
    repeat (apply Forall_app; split); try done; by repeat constructor.
Qed.

Lemma validated_import_does_not_raise_witness :
  ∃ fs' out',
    on_stdout (main (Import (Some "stats.json")) files_with_complete_update morning)
    = (Return fs', out')
    ∧ Forall2 (reported index_of_A) complete_update (List.filter headline out').
Proof.
  apply (validated_import_does_not_raise files_with_complete_update morning "stats.json"
           [File_format_is_valid 1] [player_entry "A" [("goals", 1%Z)]] complete_update
           index_of_A).
  - reflexivity.
  - reflexivity.
  - reflexivity.
  - reflexivity.
  - by repeat constructor.
  - by repeat constructor.
Defined.

(** The same import of an entry whose name is a lone surrogate: the entry
    passes the validation, and the line that reports it cannot be written. *)
Lemma surrogate_name_ends_the_import :
  validate_stats_file files_with_surrogate "stats.json"
  = (Return true, [File_format_is_valid 1])
  ∧ on_stdout (main (Import (Some "stats.json")) files_with_surrogate morning)
    = (Raise UnicodeEncodeError,
       [File_format_is_valid 1; Importing_collected_player_stats; Rule]).
Proof. split; reflexivity. Qed.

(** ** The retry loop *)

Section RetryFurther.

Variable World : Type.
Variable acquire : source → World → outcome (list row) * World.
Variable sleep : nat → World → World.
Variable max_attempts : nat.
Variable delay : nat.

Local Abbreviation retry_loop' := (retry_loop World acquire sleep max_attempts delay).
Local Abbreviation fetch := (fetch_with_retry World acquire sleep max_attempts delay).
Local Abbreviation scrape' := (scrape World acquire sleep max_attempts delay).
Local Abbreviation world_after' := (world_after World acquire sleep delay).

Lemma retry_loop_first_success (src : source) (df : list row) (n a : nat)
    (later : list nat) (st : scraper World) :
  (∀ i, i < n → fails (acquire src (world_after' src i (world st))).1 = true) →
  (acquire src (world_after' src n (world st))).1 = Return df →
  a + n < max_attempts →
  ∃ st' evs,
    retry_loop' src (seq a (S n) ++ later) st = Return st'
    ∧ dataframes st' = <[stat_type src := df]> (dataframes st)
    ∧ world st' = (acquire src (world_after' src n (world st))).2
    ∧ trace st' = trace st ++ evs
    ∧ acquisitions evs = S n
    ∧ sleeps delay evs = n.
Proof.
  revert a st. induction n as [|n IH]; intros a st Hfail Hok Ha.
  - cbn [seq app retry_loop world_after] in Hok |- *.
    destruct (acquire src (world st)) as [res w]. cbn [fst snd] in Hok |- *. subst res.
    eexists _, [Acquire src]. by split_and!.
  - change (seq a (S (S n)) ++ later) with (a :: (seq (S a) (S n) ++ later)).
    cbn [retry_loop].
    pose proof (Hfail 0 ltac:(lia)) as Hw. cbn [world_after] in Hw, Hok |- *.
    destruct (acquire src (world st)) as [[df'|e] w] eqn:Eacq; [done|].
    cbn [fst snd] in Hw, Hok |- *. cbn [fails] in Hw. rewrite Hw. rewrite bool_decide_eq_false_2 by lia.
    edestruct (IH (S a) (time_sleep World sleep delay
                           (emit World (Attempt_failed (a + 1) e)
                              (emit World (Acquire src)
                                 (Scraper World w (dataframes st) (trace st))))))
      as (st' & evs & -> & Hd & Hwd & Ht & Hacq & Hsl); [| |lia|].
    + intros i Hi. specialize (Hfail (S i) ltac:(lia)).
      simpl in Hfail. by rewrite Eacq in Hfail.
    + done.
    + eexists _, ([Acquire src; Attempt_failed (a + 1) e; Sleep delay] ++ evs).
      split_and!; [done|by rewrite Hd|by rewrite Hwd| | |].
      * rewrite Ht. cbn. by rewrite <- !app_assoc.
      * rewrite acquisitions_app, Hacq. done.
      * cbn [app]. by rewrite sleeps_failed_attempt, Hsl.
Qed.

(** X7: the first success ends the retries. When the acquisition fails
    [failures] times and then succeeds, with [failures] below the budget,
    the loop stores the table it returned, has called the acquisition
    [failures + 1] times and slept [failures] times, and makes no further
    request. *)
Theorem first_success_ends_the_retries (src : source) (df : list row) (failures : nat)
    (st : scraper World) :
  failures < max_attempts →
  (∀ i, i < failures →
     fails (acquire src (world_after' src i (world st))).1 = true) →
  (acquire src (world_after' src failures (world st))).1 = Return df →
  ∃ st' evs,
    fetch src st = Return st'
    ∧ dataframes st' = <[stat_type src := df]> (dataframes st)
    ∧ world st' = (acquire src (world_after' src failures (world st))).2
    ∧ trace st' = trace st ++ evs
    ∧ acquisitions evs = S failures
    ∧ sleeps delay evs = failures.
Proof.
  intros Hlt Hfail Hok. unfold fetch_with_retry.
  assert (seq 0 max_attempts
          = seq 0 (S failures) ++ seq (S failures) (max_attempts - S failures)) as ->.
  { rewrite <- seq_app. f_equal. lia. }
  apply retry_loop_first_success; [done|done|lia].
Qed.

Lemma retry_loop_returns (src : source) (n a : nat) (st st' : scraper World) :
  retry_loop' src (seq a (S n)) st = Return st' →
  a + S n = max_attempts →
  ∃ df evs,
    dataframes st' = <[stat_type src := df]> (dataframes st)
    ∧ trace st' = trace st ++ evs
    ∧ 0 < acquisitions evs ≤ S n
    ∧ sleeps delay evs + 1 = acquisitions evs.
Proof.
  revert a st. induction n as [|n IH]; intros a st Hr Ha.
  - cbn [seq retry_loop] in Hr.
    destruct (acquire src (world st)) as [[df|e] w].
    + injection Hr as <-. exists df, [Acquire src].
      split_and!; try done; cbn; lia.
    + destruct (is_Exception e); [|done].
      rewrite bool_decide_eq_true_2 in Hr by lia. injection Hr as <-.
      exists [], [Acquire src; Attempt_failed (a + 1) e].
      split_and!; try done; [|cbn; lia..]. cbn. by rewrite <- app_assoc.
  - change (seq a (S (S n))) with (a :: seq (S a) (S n)) in Hr. cbn [retry_loop] in Hr.
    destruct (acquire src (world st)) as [[df|e] w].
    + injection Hr as <-. exists df, [Acquire src].
      split_and!; try done; cbn; lia.
    + destruct (is_Exception e); [|done].
      rewrite bool_decide_eq_false_2 in Hr by lia.
      apply IH in Hr as (df & evs & Hd & Ht & Hacq & Hsl); [|lia].
      exists df, ([Acquire src; Attempt_failed (a + 1) e; Sleep delay] ++ evs).
      split_and!.
      * by rewrite Hd.
      * rewrite Ht. cbn. by rewrite <- !app_assoc.
      * rewrite acquisitions_app. cbn. lia.
      * rewrite acquisitions_app. cbn. lia.
      * rewrite acquisitions_app. cbn [app]. rewrite sleeps_failed_attempt.
        change (acquisitions [Acquire src; Attempt_failed (a + 1) e; Sleep delay]) with 1.
        lia.
Qed.

Lemma retry_loop_returns_within (src : source) (m a : nat) (st st' : scraper World) :
  0 < m →
  a + m = max_attempts →
  retry_loop' src (seq a m) st = Return st' →
  ∃ df evs,
    dataframes st' = <[stat_type src := df]> (dataframes st)
    ∧ trace st' = trace st ++ evs
    ∧ 0 < acquisitions evs ≤ m
    ∧ sleeps delay evs + 1 = acquisitions evs.
Proof. destruct m as [|n]; [lia|]. intros _ Ha Hr. by eapply retry_loop_returns. Qed.

(** X8: whatever the site does, a retry loop that returns has called the
    acquisition at least once and at most [max_attempts] times, has slept
    between the calls only (once less than it called), and has set the
    entry of its own table and no other. *)
Theorem retries_are_bounded (src : source) (st st' : scraper World) :
  0 < max_attempts →
  fetch src st = Return st' →
  ∃ df evs,
    dataframes st' = <[stat_type src := df]> (dataframes st)
    ∧ trace st' = trace st ++ evs
    ∧ 0 < acquisitions evs ≤ max_attempts
    ∧ sleeps delay evs + 1 = acquisitions evs.
Proof. intros Hmax Hr. by apply (retry_loop_returns_within src max_attempts 0). Qed.

Lemma retry_loop_raises (src : source) (attempts : list nat) (st : scraper World)
    (e : exn) :
  retry_loop' src attempts st = Raise e → is_Exception e = false.
Proof.
  revert st. induction attempts as [|a attempts IH]; intros st; [done|].
  cbn [retry_loop]. destruct (acquire src (world st)) as [[df|e'] w]; [done|].
  destruct (is_Exception e') eqn:E.
  - case_bool_decide; apply IH.
  - by intros [= <-].
Qed.

(** X9: the scrape is left only by an exception that is not an
    [Exception] ([KeyboardInterrupt], [SystemExit]); every other failure of
    the acquisition is caught. *)
Theorem only_interrupts_leave_the_scrape (sources : list source) (st : scraper World)
    (e : exn) :
  scrape' sources st = Raise e → is_Exception e = false.
Proof.
  revert st. induction sources as [|src sources IH]; intros st; [done|].
  cbn [scrape]. unfold fetch_with_retry.
  destruct (retry_loop' src (seq 0 max_attempts) st) as [st'|e'] eqn:E.
  - apply IH.
  - intros [= <-]. by eapply retry_loop_raises.
Qed.

Lemma scrape_stores (sources : list source) (st st' : scraper World) :
  0 < max_attempts →
  scrape' sources st = Return st' →
  (∀ src, src ∈ sources →
     ∃ df, dataframes st' !! stat_type src = Some df
           ∧ (df = []
              ∨ ∃ src' w, src' ∈ sources ∧ stat_type src' = stat_type src
                          ∧ (acquire src' w).1 = Return df))
  ∧ (∀ key, key ∉ stat_type <$> sources → dataframes st' !! key = dataframes st !! key).
Proof.
  intros Hmax. revert st. induction sources as [|src rest IH]; intros st Hr.
  - injection Hr as <-. split; [by intros src ?%elem_of_nil|done].
  - cbn [scrape] in Hr.
    destruct (fetch src st) as [st1|e] eqn:Hfetch; [|done].
    apply (fetch_stores World acquire sleep max_attempts delay) in Hfetch
      as (df & evs & Hd & _ & Hdf); [|done].
    apply IH in Hr as [Hall Hother]. cbn [time_sleep emit dataframes] in Hother.
    assert (∀ src', src' ∈ rest →
              ∃ df', dataframes st' !! stat_type src' = Some df'
                     ∧ (df' = []
                        ∨ ∃ src'' w, src'' ∈ src :: rest
                                     ∧ stat_type src'' = stat_type src'
                                     ∧ (acquire src'' w).1 = Return df')) as Hrest.
    { intros src' Hin. destruct (Hall src' Hin) as (df' & Hlook & Hdf').
      exists df'. split; [done|].
      destruct Hdf' as [->|(src'' & w & Hin'' & Hkey & Hret)]; [by left|].
      right. exists src'', w. split_and!; [by right|done|done]. }
    split.
    + intros src' [->|Hin]%elem_of_cons; [|by apply Hrest].
      destruct (decide (stat_type src ∈ stat_type <$> rest)) as [Hdup|Hfresh].
      * apply list_elem_of_fmap in Hdup as (src' & Hkey & Hin).
        rewrite Hkey. by apply Hrest.
      * exists df. rewrite (Hother _ Hfresh), Hd, lookup_insert_eq. split; [done|].
        destruct Hdf as [->|[w Hret]]; [by left|].
        right. exists src, w. split_and!; [left|done|done].
    + intros key Hkey. rewrite fmap_cons, not_elem_of_cons in Hkey.
      destruct Hkey as [Hne Hkey]. by rewrite (Hother _ Hkey), Hd, lookup_insert_ne.
Qed.

(** X10: after a scrape that returns, every source has an entry in
    [dataframes]: a table that the site returned for that key, or the empty
    table, and the empty table when every request for that key failed. The
    entries under other keys are as they were. *)
Theorem every_source_gets_a_table (sources : list source) (st st' : scraper World) :
  0 < max_attempts →
  scrape' sources st = Return st' →
  (∀ src, src ∈ sources →
     ∃ df, dataframes st' !! stat_type src = Some df
           ∧ (df = []
              ∨ ∃ src' w, src' ∈ sources ∧ stat_type src' = stat_type src
                          ∧ (acquire src' w).1 = Return df))
  ∧ (∀ src, src ∈ sources →
       (∀ src' w, src' ∈ sources → stat_type src' = stat_type src →
          fails (acquire src' w).1 = true) →
       dataframes st' !! stat_type src = Some [])
  ∧ (∀ key, key ∉ stat_type <$> sources → dataframes st' !! key = dataframes st !! key).
Proof.
  intros Hmax Hr. destruct (scrape_stores sources st st' Hmax Hr) as [Hall Hother].
  split_and!; [done| |done].
  intros src Hin Hfail. destruct (Hall src Hin) as (df & Hlook & Hdf).
  destruct Hdf as [->|(src' & w & Hin' & Hkey & Hret)]; [done|].
  specialize (Hfail src' w Hin' Hkey). by rewrite Hret in Hfail.
Qed.

End RetryFurther.

Lemma first_success_ends_the_retries_witness :
  ∃ st' evs,
    fetch_with_retry nat site_slow no_wait 5 RETRY_DELAY standard (Scraper nat 0 ∅ [])
    = Return st'
    ∧ dataframes st'
      = <["standard" := [[(lit "Player", CellStr (lit "Bukayo Saka"));
                          (lit "Squad", CellStr (lit "Arsenal"))]]]> ∅
    ∧ world st' = 3
    ∧ trace st' = [] ++ evs
    ∧ acquisitions evs = 3
    ∧ sleeps RETRY_DELAY evs = 2.
Proof.
  apply (first_success_ends_the_retries nat site_slow no_wait 5 RETRY_DELAY
           standard _ 2 (Scraper nat 0 ∅ [])).
  - lia.
  - intros [|[|i]] Hi; [reflexivity|reflexivity|lia].
  - reflexivity.
Defined.

Lemma retries_are_bounded_witness :
  ∃ st',
    fetch_with_retry nat site_slow no_wait MAX_RETRIES RETRY_DELAY standard
      (Scraper nat 0 ∅ []) = Return st'
    ∧ ∃ df evs,
        dataframes st' = <["standard" := df]> ∅
        ∧ trace st' = [] ++ evs
        ∧ 0 < acquisitions evs ≤ MAX_RETRIES
        ∧ sleeps RETRY_DELAY evs + 1 = acquisitions evs.
Proof.
  eexists. split; [reflexivity|].
  apply (retries_are_bounded nat site_slow no_wait MAX_RETRIES RETRY_DELAY standard
           (Scraper nat 0 ∅ [])).
  - unfold MAX_RETRIES. lia.
  - reflexivity.
Defined.

Lemma only_interrupts_leave_the_scrape_witness :
  scrape nat interrupted no_wait MAX_RETRIES RETRY_DELAY [standard; shooting]
    (Scraper nat 0 ∅ []) = Raise KeyboardInterrupt
  ∧ is_Exception KeyboardInterrupt = false.
Proof.
  split; [reflexivity|].
  apply (only_interrupts_leave_the_scrape nat interrupted no_wait MAX_RETRIES RETRY_DELAY
           [standard; shooting] (Scraper nat 0 ∅ [])).
  reflexivity.
Defined.

Lemma every_source_gets_a_table_witness :
  ∃ st',
    scrape nat site_down no_wait MAX_RETRIES RETRY_DELAY [standard; shooting]
      (Scraper nat 0 ∅ []) = Return st'
    ∧ dataframes st' !! "standard" = Some []
    ∧ dataframes st' !! "shooting" = Some []
    ∧ (∀ key, key ∉ stat_type <$> [standard; shooting] →
         dataframes st' !! key = (∅ : gmap string (list row)) !! key).
Proof.
  assert (∃ st', scrape nat site_down no_wait MAX_RETRIES RETRY_DELAY [standard; shooting]
                   (Scraper nat 0 ∅ []) = Return st') as [st' Hscrape]
    by (eexists; reflexivity).
  exists st'. split; [exact Hscrape|].
  destruct (every_source_gets_a_table nat site_down no_wait MAX_RETRIES RETRY_DELAY
              [standard; shooting] (Scraper nat 0 ∅ []) st') as (_ & Hempty & Hother).
  - unfold MAX_RETRIES. lia.
  - exact Hscrape.
  - split_and!; [| |exact Hother].
    + apply (Hempty standard); [left|]. intros src' w _ _. reflexivity.
    + apply (Hempty shooting); [right; left|]. intros src' w _ _. reflexivity.
Defined.

(** ** The matcher *)

Section MatcherFurther.
Variable lower : str → str.
Variable isalnum : char → bool.

Local Abbreviation normalize := (normalize_name lower isalnum).
Local Abbreviation accepted' := (accepted lower isalnum).
Local Abbreviation find_player' := (find_player lower isalnum).
Local Abbreviation find_players' := (find_players_with_debug lower isalnum).

Lemma find_player_Some (t : target) (df : list row) (r : row) :
  find_player' t df = Some r →
  ∃ i, df !! i = Some r ∧ accepted' t r = true
       ∧ ∀ k r', k < i → df !! k = Some r' → accepted' t r' = false.
Proof.
  induction df as [|r0 df IH]; [done|].
  cbn [find_player]. fold (accepted' t r0).
  destruct (accepted' t r0) eqn:E0.
  - intros [= <-]. exists 0. split_and!; [done|done|intros; lia].
  - intros (i & Hi & Ha & Hfirst)%IH. exists (S i). split_and!; [done|done|].
    intros [|k] r' Hk Hr'; [by injection Hr' as <-|]. apply (Hfirst k); [lia|done].
Qed.

Lemma find_player_None (t : target) (df : list row) :
  find_player' t df = None ↔ existsb (accepted' t) df = false.
Proof.
  induction df as [|r0 df IH]; [done|].
  cbn [find_player existsb]. fold (accepted' t r0).
  by destruct (accepted' t r0).
Qed.

(** X11: the matcher returns only rows of the table, and each of them is,
    for one of the targets, the first row that is accepted for it. *)
Theorem found_rows_are_first_accepted (df : list row) (targets : list target) (r : row) :
  r ∈ find_players' df targets →
  ∃ t i, t ∈ targets ∧ df !! i = Some r ∧ accepted' t r = true
         ∧ ∀ k r', k < i → df !! k = Some r' → accepted' t r' = false.
Proof.
  unfold find_players_with_debug. destruct (df_empty df); [by intros ?%elem_of_nil|].
  intros (t & Ht & Hf)%list_elem_of_omap.
  apply find_player_Some in Hf as (i & Hi & Ha & Hfirst). by exists t, i.
Qed.

Lemma omap_find_player_length (df : list row) (targets : list target) :
  length (omap (λ t, find_player' t df) targets)
  = length (List.filter (λ t, existsb (accepted' t) df) targets).
Proof.
  induction targets as [|t targets IH]; [done|].
  cbn [omap list_omap List.filter].
  destruct (find_player' t df) as [r|] eqn:E.
  - destruct (existsb (accepted' t) df) eqn:E'.
    + simpl. by rewrite <- IH.
    + apply find_player_None in E'. congruence.
  - apply find_player_None in E. by rewrite E.
Qed.

(** X12: of a table without rows or without columns the matcher returns
    nothing. Of any other table it returns one row for each target that
    some row is accepted for, so never more rows than targets, and no row
    exactly when no row is accepted for any target. *)
Theorem one_row_for_each_matched_target (df : list row) (targets : list target) :
  length (find_players' df targets)
  = (if df_empty df then 0
     else length (List.filter (λ t, existsb (accepted' t) df) targets))
  ∧ length (find_players' df targets) ≤ length targets
  ∧ (find_players' df targets = []
     ↔ df_empty df = true
       ∨ ∀ t r, t ∈ targets → r ∈ df → accepted' t r = false).
Proof.
  unfold find_players_with_debug. destruct (df_empty df) eqn:Hcols.
  { split_and!; [done|simpl; lia|]. split; [by left|done]. }
  pose proof (omap_find_player_length df targets) as Hlen.
  split_and!; [done| |].
  - rewrite Hlen. apply List.filter_length_le.
  - rewrite <- length_zero_iff_nil, Hlen, length_zero_iff_nil. split.
    + intros Hnil. right. intros t r Ht Hr.
      destruct (accepted' t r) eqn:Ha; [|done].
      assert (t ∈ List.filter (λ t, existsb (accepted' t) df) targets) as Hin.
      { apply list_elem_of_In, List.filter_In. split; [by apply list_elem_of_In|].
        apply existsb_exists. exists r. split; [by apply list_elem_of_In|done]. }
      rewrite Hnil in Hin. by apply elem_of_nil in Hin.
    + intros [?|Hnone]; [done|]. clear Hlen.
      induction targets as [|t targets IH]; [done|].
      cbn [List.filter].
      destruct (existsb (accepted' t) df) eqn:E.
      * apply existsb_exists in E as (r & Hr%list_elem_of_In & Ha).
        rewrite (Hnone t r) in Ha; [done|left|done].
      * apply IH. intros t' r Ht' Hr. apply Hnone; [by right|done].
Qed.

(** ** The shape of a normalised name *)

Lemma elem_of_re_sub_spaces_strong (b : bool) (c : char) (s : str) :
  c ∈ re_sub_spaces b s → c = SPACE ∨ (c ∈ s ∧ isspace c = false).
Proof.
  revert b. induction s as [|d s IH]; intros b; cbn [re_sub_spaces];
    [by intros ?%elem_of_nil|].
  destruct (isspace d) eqn:Hd.
  - destruct b.
    + intros [?|[? ?]]%IH; [by left|right; split; [by right|done]].
    + intros [->|[?|[? ?]]%IH]%elem_of_cons;
        [by left|by left|right; split; [by right|done]].
  - intros [->|[?|[? ?]]%IH]%elem_of_cons;
      [right; split; [left|done]|by left|right; split; [by right|done]].
Qed.

(** X13: a normalised name consists of words separated by single spaces:
    it has no white space at either end, white space occurs in it only as
    single spaces, and every other character is a word character that none
    of the accent substitutions changes. This holds for every table of
    [str.lower] and [str.isalnum]. *)
Theorem normalized_name_is_words_and_single_spaces (name : str) :
  strip (normalize name) = normalize name
  ∧ collapsed false (normalize name) = true
  ∧ Forall (λ c, c = SPACE
                 ∨ (isword isalnum c = true ∧ isspace c = false ∧ fold_char c = c))
      (normalize name).
Proof.
  split_and!; [apply strip_normalize|apply collapsed_normalize|].
  apply Forall_forall. intros c Hc.
  destruct name as [|c0 s0]; [by apply elem_of_nil in Hc|].
  unfold normalize_name in Hc. cbv zeta in Hc.
  apply elem_of_strip, elem_of_re_sub_spaces_strong in Hc as [->|[Hc Hsp]]; [by left|].
  unfold re_sub_punct in Hc. apply list_elem_of_fmap in Hc as (d & -> & Hd).
  destruct (isword isalnum d || isspace d) eqn:Hw; [|by left].
  right. rewrite Hsp, orb_false_r in Hw. split_and!; [done|done|].
  rewrite fold_accents_fmap in Hd. apply list_elem_of_fmap in Hd as (e & -> & He).
  apply fold_char_idem.
Qed.

End MatcherFurther.

Lemma found_rows_are_first_accepted_witness :
  ∃ t i,
    t ∈ [zubimendi]
    ∧ [player_row "Mikel Oyarzabal" "Real Sociedad"; player_row "Zubimendi" "Sociedad"] !! i
      = Some (player_row "Zubimendi" "Sociedad")
    ∧ accepted latin1_lower latin1_isalnum t (player_row "Zubimendi" "Sociedad") = true
    ∧ ∀ k r', k < i →
        [player_row "Mikel Oyarzabal" "Real Sociedad"; player_row "Zubimendi" "Sociedad"] !! k
        = Some r' →
        accepted latin1_lower latin1_isalnum t r' = false.
Proof.
  apply (found_rows_are_first_accepted latin1_lower latin1_isalnum
           [player_row "Mikel Oyarzabal" "Real Sociedad"; player_row "Zubimendi" "Sociedad"]
           [zubimendi]).
  vm_compute. left.
Defined.

(** ** Positions and ids *)





Lemma lit_inj (s1 s2 : string) : lit s1 = lit s2 → s1 = s2.
Proof.
  unfold lit. intros H.
  assert (Inj (=) (=) Ascii.N_of_ascii) as Hinj.
  { intros a b Hab. by rewrite <- (Ascii.ascii_N_embedding a), Hab, Ascii.ascii_N_embedding. }
  apply (inj (fmap Ascii.N_of_ascii)) in H.
  by rewrite <- (String.string_of_list_ascii_of_string s1), H,
    String.string_of_list_ascii_of_string.
Qed.

Lemma assign_ids_lookup (i j : nat) (player_list : list dict) (p : dict) :
  assign_ids i player_list !! j = Some p →
  ∃ p0, player_list !! j = Some p0
        ∧ p = dict_set p0 (lit "id") (JStr (lit (pretty (i + j + 1)))).
Proof.
  revert i j. induction player_list as [|p0 rest IH]; intros i j; [done|].
  destruct j as [|j]; cbn [assign_ids].
  - intros [= <-]. exists p0. split; [done|]. by rewrite Nat.add_0_r.
  - intros (p1 & Hp1 & ->)%IH. exists p1. split; [done|].
    by replace (S i + j + 1) with (i + S j + 1) by lia.
Qed.

(** X15: the ids are the positions in the list counted from one, written
    in decimal; no two players get the same id, and no other field of a
    player is changed. *)
Theorem ids_are_sequential_and_distinct (player_list : list dict) (j : nat) (p : dict) :
  assign_ids 0 player_list !! j = Some p →
  dict_get p (lit "id") = Some (JStr (lit (pretty (j + 1))))
  ∧ (∃ p0, player_list !! j = Some p0
           ∧ ∀ f, f ≠ lit "id" → dict_get p f = dict_get p0 f)
  ∧ ∀ k q, assign_ids 0 player_list !! k = Some q →
           dict_get q (lit "id") = dict_get p (lit "id") → k = j.
Proof.
  intros (p0 & Hp0 & ->)%assign_ids_lookup. cbn [Nat.add]. split_and!.
  - apply dict_get_set_eq.
  - exists p0. split; [done|]. intros f Hf. by apply dict_get_set_ne.
  - intros k q (q0 & Hq0 & ->)%assign_ids_lookup. cbn [Nat.add].
    rewrite !dict_get_set_eq. intros [= H%lit_inj%(inj pretty)]. lia.
Qed.

(** ** The filter of multi_league_scraper.py *)

Lemma filter_sublist {A : Type} (p : A → bool) (l : list A) :
  List.filter p l `sublist_of` l.
Proof.
  induction l as [|x l IH]; [done|]. cbn [List.filter].
  destruct (p x); by constructor.
Qed.

Lemma filter_idem {A : Type} (p : A → bool) (l : list A) :
  List.filter p (List.filter p l) = List.filter p l.
Proof.
  induction l as [|x l IH]; [done|]. cbn [List.filter].
  destruct (p x) eqn:E; [|done]. cbn [List.filter]. by rewrite E, IH.
Qed.

Section FilterProps.
Variable lower : str → str.

Local Abbreviation normalize := (MultiLeague.normalize_name lower).
Local Abbreviation filter_players := (MultiLeague.filter_players_from_df lower).

(** X16: the filter of multi_league_scraper.py returns rows of the table in
    their order. A table without rows or without columns it returns as it
    is; of any other table it keeps exactly the rows whose normalised name
    is the normalised name of a target. Filtering again changes nothing,
    and the clubs of the targets play no part. *)
Theorem filter_goes_by_the_name_alone (df : list row)
    (targets targets' : list MultiLeague.player) :
  filter_players df targets `sublist_of` df
  ∧ (df_empty df = true → filter_players df targets = df)
  ∧ (df_empty df = false →
     ∀ r, r ∈ filter_players df targets
          ↔ r ∈ df
            ∧ ∃ p, p ∈ targets
                   ∧ normalize (py_str (row_get r (lit "Player") (CellStr [])))
                     = normalize (MultiLeague.name p))
  ∧ filter_players (filter_players df targets) targets = filter_players df targets
  ∧ (MultiLeague.name <$> targets' = MultiLeague.name <$> targets →
     filter_players df targets' = filter_players df targets).
Proof.
  unfold MultiLeague.filter_players_from_df. split_and!.
  - destruct (df_empty df); [done|apply filter_sublist].
  - by intros ->.
  - intros -> r. rewrite list_elem_of_In, List.filter_In, <- list_elem_of_In.
    unfold MultiLeague.keeps, MultiLeague.target_names.
    rewrite bool_decide_eq_true, list_elem_of_fmap.
    split; intros [Hr (p & H1 & H2)]; (split; [done|]); by exists p.
  - destruct (df_empty df) eqn:Hcols; [by rewrite Hcols|].
    destruct (df_empty (List.filter _ df)); [done|apply filter_idem].
  - intros Hnames. destruct (df_empty df); [done|].
    f_equal. unfold MultiLeague.keeps, MultiLeague.target_names.
    assert (∀ ts : list MultiLeague.player,
              (λ p, normalize (MultiLeague.name p)) <$> ts
              = normalize <$> (MultiLeague.name <$> ts)) as Hcomp.
    { intros ts. by rewrite <- list_fmap_compose. }
    by rewrite !Hcomp, Hnames.
Qed.

End FilterProps.

Lemma filter_goes_by_the_name_alone_witness :
  let wirtz := MultiLeague.Player (lit "Florian Wirtz") (lit "Bayer Leverkusen") in
  let table := [player_row "Florian Wirtz" "Leverkusen"; player_row "Granit Xhaka" "Leverkusen"] in
  MultiLeague.filter_players_from_df latin1_lower [[]; []] [wirtz] = [[]; []]
  ∧ ∀ r, r ∈ MultiLeague.filter_players_from_df latin1_lower table [wirtz]
         ↔ r ∈ table
           ∧ ∃ p, p ∈ [wirtz]
                  ∧ MultiLeague.normalize_name latin1_lower
                      (py_str (row_get r (lit "Player") (CellStr [])))
                    = MultiLeague.normalize_name latin1_lower (MultiLeague.name p).
Proof.
  intros wirtz table. split.
  - apply (filter_goes_by_the_name_alone latin1_lower [[]; []] [wirtz] [wirtz]).
    reflexivity.
  - apply (filter_goes_by_the_name_alone latin1_lower table [wirtz] [wirtz]).
    reflexivity.
Defined.

(** ** One league of targeted_player_scraper.py *)

Section TargetedProps.
Variable lower : str → str.
Variable isalnum : char → bool.
Variable World : Type.
Variable acquire : source → World → outcome (list row) * World.

Local Abbreviation scrape_one := (Targeted.scrape_targeted_players lower isalnum World acquire).

Lemma find_players_length (df : list row) (targets : list target) :
  length (find_players_with_debug lower isalnum df targets) ≤ length targets.
Proof.
  unfold find_players_with_debug. destruct (df_empty df); [simpl; lia|].
  induction targets as [|t targets IH]; [done|]. cbn [omap list_omap].
  destruct (find_player lower isalnum t df); simpl; lia.
Qed.

(** X17: one league of targeted_player_scraper.py asks for the standard
    table once, with no retry. What it returns has the one key [standard],
    with at most one row per target and no row when the request failed;
    it raises only what is not an [Exception]. *)
Theorem targeted_scrape_asks_once (cfg : Targeted.league_config) (w : World) :
  let src := Source "standard"
               ("https://fbref.com/en/comps/" +:+ Targeted.comp_id cfg
                +:+ "/2024-2025/stats/2024-2025-" +:+ Targeted.name cfg +:+ "-Stats")
               "stats_standard" in
  (scrape_one cfg w).2 = (acquire src w).2
  ∧ match (scrape_one cfg w).1 with
    | Return dfs =>
        ∃ rows, dfs = {[ "standard" := rows ]}
                ∧ length rows ≤ length (Targeted.players cfg)
                ∧ (fails (acquire src w).1 = true → rows = [])
    | Raise e => (acquire src w).1 = Raise e ∧ is_Exception e = false
    end.
Proof.
  intros src. unfold Targeted.scrape_targeted_players, Targeted.build_urls_for_league.
  rewrite lookup_singleton_eq.
  change ("https://fbref.com/en/comps/" +:+ Targeted.comp_id cfg +:+ "/" +:+ Targeted.SEASON
          +:+ "/stats/" +:+ Targeted.SEASON +:+ "-" +:+ Targeted.name cfg +:+ "-Stats")
    with (url src).
  change (Source "standard" (url src) "stats_standard") with src.
  destruct (acquire src w) as [[df|e] w']; cbn [fst snd].
  - split; [done|]. eexists. split_and!; [done|apply find_players_length|done].
  - destruct (is_Exception e) eqn:E; cbn [fst snd]; [|done].
    split; [done|]. exists []. split_and!; [done|simpl; lia|done].
Qed.

End TargetedProps.

Lemma ids_are_sequential_and_distinct_witness :
  dict_get (dict_set at_sociedad (lit "id") (JStr (lit "2"))) (lit "id")
  = Some (JStr (lit (pretty (1 + 1))))
  ∧ (∃ p0, [at_arsenal; at_sociedad] !! 1 = Some p0
           ∧ ∀ f, f ≠ lit "id" →
               dict_get (dict_set at_sociedad (lit "id") (JStr (lit "2"))) f
               = dict_get p0 f)
  ∧ ∀ k q, assign_ids 0 [at_arsenal; at_sociedad] !! k = Some q →
           dict_get q (lit "id")
           = dict_get (dict_set at_sociedad (lit "id") (JStr (lit "2"))) (lit "id") →
           k = 1.
Proof.
  apply (ids_are_sequential_and_distinct [at_arsenal; at_sociedad] 1).
  reflexivity.
Defined.
